(** * Story-view engagement profiler: the dataset builder of [visualize.py]

    A shallow embedding of [read_story_csv], [build_dataset] and the landmark
    positioning loop of [plot_results], with the properties of the
    classification core stated over it; then of the rest of [parse_args] and
    [plot_results], of the records [main.py] writes and of the locale of
    [i18n.py].

    Conventions.
    - Every [datetime] carries a UTC offset, as the dates [main.py] writes do,
      and is represented by the number of microseconds between it and the
      epoch, so comparison and subtraction are those of [Z].
    - [int((a - b).total_seconds())] is the difference in seconds truncated
      toward zero, [Z.quot]; the float in between is exact enough for that
      whenever the two times are less than 2^33 seconds (some 270 years)
      apart.
    - The floats of the engagement values (0, 0.5, 0.75, 1) and of the
      landmark positions are rationals, [Q], and their arithmetic is exact.
    - Python exceptions are values of [exn]; a computation that may raise
      returns [exc A].
    - A Python [dict] is an association list in insertion order; assigning to
      a key that is present keeps its place and replaces its value. *)

From Stdlib Require Import Ascii String ZArith QArith List Bool Lia.
From Stdlib Require Import Permutation Sorted Orders Mergesort Lqa.
Import ListNotations.

Open Scope Z_scope.

(** ** Exceptions *)

Inductive exn : Type :=
| SystemExit
| TypeError
| IndexError.

Inductive exc (A : Type) : Type :=
| Ok (a : A)
| Raise (e : exn).

Arguments Ok {A} a.
Arguments Raise {A} e.

Definition bind {A B : Type} (m : exc A) (k : A -> exc B) : exc B :=
  match m with
  | Ok a => k a
  | Raise e => Raise e
  end.

Notation "x <- m ;; k" := (bind m (fun x => k))
  (at level 61, m at next level, right associativity).
Notation "' p <- m ;; k" := (bind m (fun x => let 'p := x in k))
  (at level 61, p pattern, m at next level, right associativity).

Fixpoint mapM {A B : Type} (f : A -> exc B) (l : list A) : exc (list B) :=
  match l with
  | [] => Ok []
  | a :: l' => b <- f a ;; bs <- mapM f l' ;; Ok (b :: bs)
  end.

(** ** Lists and dictionaries *)

(** [l[i]] for a Python list: a negative index counts from the end, an index
    out of range raises [IndexError]. *)
Definition getitem {A : Type} (l : list A) (i : Z) : exc A :=
  let n := Z.of_nat (length l) in
  let j := if i <? 0 then i + n else i in
  if (0 <=? j) && (j <? n) then
    match nth_error l (Z.to_nat j) with
    | Some a => Ok a
    | None => Raise IndexError
    end
  else Raise IndexError.

Definition dict (V : Type) : Type := list (Z * V).

Fixpoint dict_get {V : Type} (d : dict V) (k : Z) : option V :=
  match d with
  | [] => None
  | (k', v) :: d' => if k' =? k then Some v else dict_get d' k
  end.

Fixpoint dict_set {V : Type} (d : dict V) (k : Z) (v : V) : dict V :=
  match d with
  | [] => [(k, v)]
  | (k', v') :: d' =>
      if k' =? k then (k', v) :: d' else (k', v') :: dict_set d' k v
  end.

Definition dict_values {V : Type} (d : dict V) : list V := map snd d.

(** ** Time *)

Definition datetime : Type := Z.

(** [int((a - b).total_seconds())]. *)
Definition seconds_between (a b : datetime) : Z := Z.quot (a - b) 1000000.

(** [dt.datetime.min.replace(tzinfo=dt.timezone.utc)]:
    0001-01-01 00:00:00 UTC. *)
Definition datetime_min_utc : datetime := -62135596800000000.

(** ** [gap_seconds.sort()] *)

Module GapOrder <: TotalLeBool.
Definition t : Type := Z.
Definition leb : Z -> Z -> bool := Z.leb.
Lemma leb_total : forall x y, leb x y = true \/ leb y x = true.
Proof. intros x y; unfold leb; rewrite !Z.leb_le; lia. Qed.
End GapOrder.

Module GapSort := Sort GapOrder.

Definition list_sort (l : list Z) : list Z := GapSort.sort l.

(** ** Story records *)

Record row : Type := mkRow {
  uid : Z;
  full_name : string;
  username : string;
  date : datetime
}.

Definition views : Type := dict datetime.

(** Lines 114-116: the per-story mapping of user to view time; a later row of
    the same user replaces the time of an earlier one. *)
Definition user_to_time_of (rows : list row) : views :=
  fold_left (fun d r => dict_set d (uid r) (date r)) rows [].

(** [min] of a non-empty sequence, given as head and tail. *)
Definition min_of (v : datetime) (vs : list datetime) : datetime :=
  fold_left Z.min vs v.

(** Lines 113-125, one iteration: the story's views and its creation time.
    The values are empty exactly when [user_to_time] is ([if not
    user_to_time]). *)
Definition load_story (rows : list row) : views * datetime :=
  let user_to_time := user_to_time_of rows in
  match dict_values user_to_time with
  | [] => ([], datetime_min_utc)
  | v :: vs => (user_to_time, min_of v vs)
  end.

(** Lines 109-125: [story_views] and [creation_times], one entry per file. *)
Definition story_views_of (stories : list (list row)) : list views :=
  map fst (map load_story stories).

Definition creation_times_of (stories : list (list row)) : list datetime :=
  map snd (map load_story stories).

(** ** Gap-distribution estimator (lines 127-152) *)

(** Lines 133-139: the gaps of the users who viewed both stories. *)
Definition pair_gaps (cur_story nxt_story : views) : list Z :=
  flat_map
    (fun '(u, cur_time) =>
       match dict_get nxt_story u with
       | None => []
       | Some nxt_time =>
           let diff := seconds_between nxt_time cur_time in
           if 0 <? diff then [diff] else []
       end)
    cur_story.

(** Lines 128-139: [for idx in range(len(story_views) - 1)]. *)
Definition gap_seconds (story_views : list views) : list Z :=
  flat_map
    (fun idx => pair_gaps (nth idx story_views []) (nth (S idx) story_views []))
    (seq 0 (length story_views - 1)).

(** Lines 142-152: [(threshold_skip, threshold_full)]. *)
Definition thresholds (gaps : list Z) : exc (Z * Z) :=
  match gaps with
  | [] => Ok (30, 60)
  | _ :: _ =>
      let sorted := list_sort gaps in
      let n := Z.of_nat (length sorted) in
      let p20_idx := (n * 20) / 100 in
      let p80_idx := (n * 80) / 100 in
      threshold_skip <- getitem sorted p20_idx ;;
      threshold_full <- getitem sorted p80_idx ;;
      Ok (threshold_skip, threshold_full)
  end.

Definition threshold_pair (story_views : list views) : exc (Z * Z) :=
  thresholds (gap_seconds story_views).

(** ** Timeline classifier (lines 154-198) *)

(** Lines 161-164: the target user's view time per story. *)
Definition user_views_of (story_views : list views) (target_user_id : Z)
  : list (option datetime) :=
  map (fun sv => dict_get sv target_user_id) story_views.

(** Lines 189-196: the engagement value of a story the target viewed. *)
Definition classify (threshold_skip threshold_full : Z) (gap : option Z) : Q :=
  match gap with
  | None => 1%Q
  | Some g =>
      if g <=? threshold_skip then (1 # 2)%Q
      else if threshold_full <=? g then 1%Q
      else (3 # 4)%Q
  end.

(** Lines 182-186: the gap to the target's view of the next story. *)
Definition next_gap (user_views : list (option datetime)) (idx : nat)
    (view_time : datetime) : option Z :=
  if (idx + 1 <? length user_views)%nat then
    match nth (idx + 1) user_views None with
    | Some next_view => Some (seconds_between next_view view_time)
    | None => None
    end
  else None.

(** Lines 170-198, one iteration: [(latency, y_val)] of story [idx]. *)
Definition observe (threshold_skip threshold_full : Z)
    (user_views : list (option datetime)) (idx : nat)
    (creation : datetime) (view_time : option datetime) : option Z * Q :=
  match view_time with
  | None => (None, 0%Q)
  | Some vt =>
      let lat_sec := seconds_between vt creation in
      (Some lat_sec,
       classify threshold_skip threshold_full (next_gap user_views idx vt))
  end.

(** [enumerate(xs)]. *)
Definition enumerate {A : Type} (xs : list A) : list (nat * A) :=
  combine (seq 0 (length xs)) xs.

(** Lines 170-198: the loop over [enumerate(zip(creation_times, user_views))]. *)
Definition observations (threshold_skip threshold_full : Z)
    (creation_times : list datetime) (user_views : list (option datetime))
  : list (option Z * Q) :=
  map (fun '(idx, (creation, view_time)) =>
         observe threshold_skip threshold_full user_views idx creation view_time)
      (enumerate (combine creation_times user_views)).

(** ** Name lookup (lines 205-215) *)

(** Truth value of a Python string: false exactly for the empty one. *)
Definition truthy (s : string) : bool :=
  match s with
  | EmptyString => false
  | String _ _ => true
  end.

(** Lines 209-213: the inner loop stops at the first row of the target. *)
Fixpoint first_row_of (target_user_id : Z) (rows : list row) : option row :=
  match rows with
  | [] => None
  | r :: rows' =>
      if uid r =? target_user_id then Some r else first_row_of target_user_id rows'
  end.

(** Lines 207-215: the outer loop, with the names found so far. *)
Fixpoint scan_names (target_user_id : Z) (stories : list (list row))
    (user_full_name user_username : string) : string * string :=
  match stories with
  | [] => (user_full_name, user_username)
  | rows :: stories' =>
      let '(fn, un) :=
        match first_row_of target_user_id rows with
        | Some r => (full_name r, username r)
        | None => (user_full_name, user_username)
        end in
      if truthy fn then (fn, un)
      else scan_names target_user_id stories' fn un
  end.

(** Lines 157-158 and 206-215. *)
Definition lookup_names (target_user_id : Z) (stories : list (list row))
  : string * string :=
  let user_full_name := EmptyString in
  let user_username := EmptyString in
  if negb (truthy user_full_name) then
    scan_names target_user_id stories user_full_name user_username
  else (user_full_name, user_username).

(** ** Landmark positioner (lines 287-306 of [plot_results]) *)

(** [(when - start).total_seconds() / (end - start).total_seconds()], taken
    as the exact quotient of the two differences. *)
Definition frac_between (start end_ when : datetime) : Q :=
  if end_ =? start then (1 # 2)%Q
  else (inject_Z (when - start) / inject_Z (end_ - start))%Q.

(** Lines 295-306: the scan of the adjacent pairs from index [idx] on. *)
Fixpoint bracket_scan (when : datetime) (pairs : list (datetime * datetime))
    (idx : nat) (fallback : Q) : Q :=
  match pairs with
  | [] => fallback
  | (start, end_) :: pairs' =>
      if (start <=? when) && (when <=? end_) then
        (inject_Z (Z.of_nat idx) + frac_between start end_ when)%Q
      else bracket_scan when pairs' (S idx) fallback
  end.

(** [zip(creation_times[:-1], creation_times[1:])]. *)
Definition adjacent (cts : list datetime) : list (datetime * datetime) :=
  combine (removelast cts) (tl cts).

(** [len(creation_times) - 0.5]. *)
Definition right_edge (creation_times : list datetime) : Q :=
  (inject_Z (Z.of_nat (length creation_times)) - (1 # 2))%Q.

(** Lines 289-306: [x_pos] of the landmark at [when]. *)
Definition landmark_x (creation_times : list datetime) (when : datetime)
  : exc Q :=
  first <- getitem creation_times 0 ;;
  if when <=? first then Ok (- (1 # 2))%Q
  else
    last <- getitem creation_times (-1) ;;
    if last <=? when then Ok (right_edge creation_times)
    else
      Ok (bracket_scan when
            (adjacent creation_times) 0 (right_edge creation_times)).

(** ** [read_story_csv] and [build_dataset] *)

Record dataset : Type := mkDataset {
  x_labels : list string;
  y_values : list Q;
  latencies : list (option Z);
  user_full_name : string;
  user_username : string;
  creation_times : list datetime
}.

Section BuildDataset.

(** [int(s)] and [dt.datetime.fromisoformat(s)] on a string: [None] stands for
    [ValueError]. [strftime c] is [c.strftime("%Y-%m-%d %H:%M")]. *)
Variable py_int : string -> option Z.
Variable fromisoformat : string -> option datetime.
Variable strftime : datetime -> string.

(** Lines 70-80, one iteration. A record is the list of fields of one line of
    a file with the header [main.py] writes: user_id, full_name, username,
    date. [csv.DictReader] passes over an empty record, gives [None] to the
    columns a short record lacks, and sets surplus fields aside. [Ok None] is
    a row the [except (KeyError, ValueError)] clause skips; [int(None)] and
    [fromisoformat(None)] raise [TypeError], which the clause does not
    catch. *)
Definition read_row (record : list string) : exc (option row) :=
  match record with
  | [] => Ok None
  | u :: cells =>
      match py_int u with
      | None => Ok None
      | Some user_id =>
          match cells with
          | fn :: un :: d :: _ =>
              match fromisoformat d with
              | None => Ok None
              | Some view_dt => Ok (Some (mkRow user_id fn un view_dt))
              end
          | _ => Raise TypeError
          end
      end
  end.

(** Lines 67-81. *)
Fixpoint read_story_csv (records : list (list string)) : exc (list row) :=
  match records with
  | [] => Ok []
  | record :: records' =>
      r <- read_row record ;;
      rows <- read_story_csv records' ;;
      Ok (match r with
          | Some x => x :: rows
          | None => rows
          end)
  end.

(** Lines 108-219, on the rows read from each file. *)
Definition dataset_of_rows (stories : list (list row)) (target_user_id : Z)
  : exc dataset :=
  let story_views := story_views_of stories in
  let creation_times := creation_times_of stories in
  '(threshold_skip, threshold_full) <- threshold_pair story_views ;;
  let user_views := user_views_of story_views target_user_id in
  let obs := observations threshold_skip threshold_full creation_times user_views in
  let '(fn, un) := lookup_names target_user_id stories in
  Ok (mkDataset (map strftime creation_times) (map snd obs) (map fst obs)
        fn un creation_times).

(** Lines 104-219; [csv_files] are the files of the directory in the order
    [sorted] gives them, each as its list of records. *)
Definition build_dataset (csv_files : list (list (list string)))
    (target_user_id : Z) : exc dataset :=
  match csv_files with
  | [] => Raise SystemExit
  | _ :: _ =>
      stories <- mapM read_story_csv csv_files ;;
      dataset_of_rows stories target_user_id
  end.

End BuildDataset.

(** ** A parser of plain decimal strings, an instance of [py_int] *)

Definition digit_of (c : Ascii.ascii) : option Z :=
  let n := Z.of_nat (Ascii.nat_of_ascii c) in
  if (48 <=? n) && (n <=? 57) then Some (n - 48) else None.

Fixpoint digits_value (s : string) (acc : Z) : option Z :=
  match s with
  | EmptyString => Some acc
  | String c s' =>
      match digit_of c with
      | Some d => digits_value s' (10 * acc + d)
      | None => None
      end
  end.

Definition decimal_int (s : string) : option Z :=
  match s with
  | EmptyString => None
  | String _ _ => digits_value s 0
  end.

(** * The rest of [visualize.py], [main.py] and [i18n.py] *)

(** ** The landmark arguments of [parse_args] (lines 36-57) *)

(** [spec.split("|", 1)] unpacked into two names: [None] when [spec] has no
    bar, which makes the unpacking raise [ValueError]. *)
Fixpoint split_bar (spec : string) : option (string * string) :=
  match spec with
  | EmptyString => None
  | String c rest =>
      if Ascii.eqb c "|"%char then Some (EmptyString, rest)
      else
        match split_bar rest with
        | Some (date_str, label) => Some (String c date_str, label)
        | None => None
        end
  end.

(** What [fromisoformat] returns for a landmark: a time with an offset, or a
    naive one, given by the microseconds its fields count from the epoch. *)
Inductive parsed_datetime : Type :=
| Naive (wall : Z)
| Aware (instant : datetime).

(** Lines 51-52: a naive time is taken as UTC. *)
Definition assume_utc (d : parsed_datetime) : datetime :=
  match d with
  | Naive wall => wall
  | Aware instant => instant
  end.

Section ParseArgs.

(** [s.strip()], and [dt.datetime.fromisoformat(s)] with [None] for
    [ValueError]. *)
Variable strip : string -> string.
Variable fromisoformat_any : string -> option parsed_datetime.

(** Lines 39-57, one iteration. *)
Definition parse_mark (spec : string) : exc (datetime * string) :=
  match split_bar spec with
  | None => Raise SystemExit
  | Some (date_str, label) =>
      match fromisoformat_any (strip date_str) with
      | None => Raise SystemExit
      | Some when => Ok (assume_utc when, strip label)
      end
  end.

(** Lines 36-57; [mark] is [args.mark], [None] when the option is absent. *)
Definition parse_marks (mark : option (list string))
  : exc (list (datetime * string)) :=
  match mark with
  | None => Ok []
  | Some [] => Ok []
  | Some (spec :: specs) => mapM parse_mark (spec :: specs)
  end.

End ParseArgs.

(** ** The order of the files (lines 98-104) *)

(** The value of [numeric_key]: an [int] or the stem itself. *)
Inductive sort_key : Type :=
| IntKey (n : Z)
| StrKey (stem : string).

(** [a < b] between two keys: defined between two ints and between two
    strings, [TypeError] between an int and a string. *)
Definition char_ltb (a b : Ascii.ascii) : bool :=
  (Ascii.nat_of_ascii a <? Ascii.nat_of_ascii b)%nat.

Fixpoint string_ltb (a b : string) : bool :=
  match a, b with
  | _, EmptyString => false
  | EmptyString, String _ _ => true
  | String x a', String y b' =>
      if char_ltb x y then true
      else if char_ltb y x then false
      else string_ltb a' b'
  end.

Definition key_lt (a b : sort_key) : exc bool :=
  match a, b with
  | IntKey m, IntKey n => Ok (m <? n)
  | StrKey s, StrKey u => Ok (string_ltb s u)
  | _, _ => Raise TypeError
  end.

Section SortedFiles.

Variable py_int : string -> option Z.

(** Lines 98-102. *)
Definition numeric_key (stem : string) : sort_key :=
  match py_int stem with
  | Some n => IntKey n
  | None => StrKey stem
  end.

(** [sorted(..., key=numeric_key)] as a stable insertion sort that, like
    [sorted], compares keys with [<] only: a stem goes in front of the stems
    that follow it in the directory listing, past those with a smaller key.
    Any sort by comparisons gives the same list when all keys compare, and
    has to compare an int with a string when both occur. *)
Fixpoint insert_stem (stem : string) (sorted : list string)
  : exc (list string) :=
  match sorted with
  | [] => Ok [stem]
  | s :: sorted' =>
      lt <- key_lt (numeric_key s) (numeric_key stem) ;;
      if lt then
        rest <- insert_stem stem sorted' ;;
        Ok (s :: rest)
      else Ok (stem :: s :: sorted')
  end.

Fixpoint sorted_stems (stems : list string) : exc (list string) :=
  match stems with
  | [] => Ok []
  | stem :: stems' =>
      sorted <- sorted_stems stems' ;;
      insert_stem stem sorted
  end.

End SortedFiles.

(** ** The drawing data of [plot_results] (lines 235-345) *)

(** [a < b] on floats. *)
Definition Qlt_bool (a b : Q) : bool := negb (Qle_bool b a).

(** [min(a, b)] and [max(a, b)] of Python: the first argument unless the
    second is smaller, respectively larger. *)
Definition qmin (a b : Q) : Q := if Qlt_bool b a then b else a.
Definition qmax (a b : Q) : Q := if Qlt_bool a b then b else a.

(** [int(x)] on a float: truncation toward zero. *)
Definition int_of_float (x : Q) : Z := Z.quot (Qnum x) (Zpos (Qden x)).

(** Line 240. *)
Definition valid_latencies (latencies : list (option Z)) : list Z :=
  flat_map
    (fun lat =>
       match lat with
       | Some l => [l]
       | None => []
       end)
    latencies.

Definition max_of (v : Z) (vs : list Z) : Z := fold_left Z.max vs v.

(** Lines 241-245: [(min_lat, max_lat, lat_range)]. *)
Definition latency_scale (latencies : list (option Z)) : Z * Z * Z :=
  match valid_latencies latencies with
  | v :: vs =>
      let min_lat := min_of v vs in
      let max_lat := max_of v vs in
      (min_lat, max_lat, if negb (max_lat =? min_lat) then max_lat - min_lat else 1)
  | [] => (0, 1, 1)
  end.

(** The colour of a line: ["#cccccc"], or the colour map at [norm]. *)
Inductive color : Type :=
| Grey
| Cmap (norm : Q).

(** Lines 251-255; the division raises [ZeroDivisionError] when [lat_range]
    is 0. *)
Inductive exn_plot : Type :=
| ZeroDivisionError.

Definition line_color (min_lat lat_range : Z) (lat : option Z)
  : color + exn_plot :=
  match lat with
  | None => inl Grey
  | Some l =>
      if lat_range =? 0 then inr ZeroDivisionError
      else inl (Cmap (inject_Z (l - min_lat) / inject_Z lat_range)%Q)
  end.

(** The three texts of lines 261-271, with the numbers they are given. *)
Inductive annotation : Type :=
| AfterSeconds (seconds : Z)
| AfterMinutes (mins secs : Z)
| AfterHours (hours mins : Z).

(** Lines 261-271; [divmod] and [//] round toward minus infinity. *)
Definition latency_annotation (lat : Z) : annotation :=
  if lat <? 60 then AfterSeconds lat
  else if lat <? 3600 then
    let (mins, secs) := (lat / 60, lat mod 60) in
    AfterMinutes mins secs
  else
    let (hours, rem) := (lat / 3600, lat mod 3600) in
    let mins := rem / 60 in
    AfterHours hours mins.

(** Lines 260-272: the label of a line and its height [y_pos], if any. *)
Definition line_label (y_val : Q) (lat : option Z) : option (Q * annotation) :=
  match lat with
  | Some l =>
      if Qlt_bool 0 y_val then
        Some (qmin (y_val + (1 # 20)) (115 # 100), latency_annotation l)
      else None
  | None => None
  end.

(** Lines 285-308: the positions of the landmarks. *)
Definition landmark_x_positions (creation_times : list datetime)
    (landmarks : list (datetime * string)) : exc (list Q) :=
  mapM (fun '(when, _) => landmark_x creation_times when) landmarks.

(** [min] and [max] of a non-empty list of floats, as head and tail. *)
Definition qmin_of (p : Q) (ps : list Q) : Q := fold_left qmin ps p.
Definition qmax_of (p : Q) (ps : list Q) : Q := fold_left qmax ps p.

(** Lines 340-345: the arguments of [ax.set_xlim]. *)
Definition x_limits (n_labels : nat) (positions : list Q) : Q * Q :=
  let min_x := 0 in
  let max_x := Z.of_nat n_labels - 1 in
  let '(min_x, max_x) :=
    match positions with
    | p :: ps =>
        (Z.min min_x (int_of_float (qmin_of p ps - 1)),
         Z.max max_x (int_of_float (qmax_of p ps + 1)))
    | [] => (min_x, max_x)
    end in
  ((inject_Z min_x - (1 # 2))%Q, (inject_Z max_x + (1 # 2))%Q).

(** ** The names [main.py] writes (lines 51-55) *)

(** [x or ""] on an optional string. *)
Definition or_empty (x : option string) : string :=
  match x with
  | Some s => s
  | None => EmptyString
  end.

Definition written_full_name (first_name last_name : option string) : string :=
  (or_empty first_name ++ " " ++ or_empty last_name)%string.

(** Lines 72-76 of [main.py]: the record [csv.writer] is given for a viewer,
    each field as the string the writer makes of it; [str_int] and
    [str_date] are [str] on an int and on a datetime. *)
Definition written_record (str_int : Z -> string)
    (str_date : datetime -> string) (viewer : row) : list string :=
  [str_int (uid viewer); full_name viewer; username viewer;
   str_date (date viewer)].

(** ** The locale of [i18n.py] (lines 10-19) *)

(** [s.split(".")[0]]. *)
Fixpoint before_dot (s : string) : string :=
  match s with
  | EmptyString => EmptyString
  | String c rest =>
      if Ascii.eqb c "."%char then EmptyString else String c (before_dot rest)
  end.

(** [s[:2]]. *)
Definition first_two (s : string) : string :=
  match s with
  | String a (String b _) => String a (String b EmptyString)
  | _ => s
  end.

(** [os.getenv("APP_LANG") or os.getenv("LANG", "en")]; a variable that is
    not set is [None]. *)
Definition env_lang (APP_LANG LANG : option string) : string :=
  let fallback :=
    match LANG with
    | Some s => s
    | None => "en"%string
    end in
  match APP_LANG with
  | Some s => if truthy s then s else fallback
  | None => fallback
  end.

(** Lines 17-19. *)
Definition detect_locale (APP_LANG LANG : option string) : string :=
  first_two (before_dot (env_lang APP_LANG LANG)).

(** * Notions used to state the properties *)

(** A time given in whole seconds. *)
Definition seconds (n : Z) : datetime := n * 1000000.

(** The three-story scenario: stories created at 0 s, 100 s and 500 s; viewer
    7 views story 0 at 10 s and story 1 at 105 s, and does not view story 2.
    Viewers 1, 2 and 3 each view one story, at its creation time. *)
Definition tie_scenario : list (list row) :=
  [ [mkRow 1 "A" "a" (seconds 0); mkRow 7 "U" "u" (seconds 10)];
    [mkRow 2 "B" "b" (seconds 100); mkRow 7 "U" "u" (seconds 105)];
    [mkRow 3 "C" "c" (seconds 500)] ].

(** Viewer 7 saw story 1 twenty seconds before story 0, and story 2 has no
    valid row at all. *)
Definition out_of_order_stories : list (list row) :=
  [ [mkRow 1 "A" "a" (seconds 0); mkRow 7 "U" "u" (seconds 50)];
    [mkRow 7 "U" "u" (seconds 30); mkRow 1 "A" "a" (seconds 40)];
    [] ].

Definition names_of (r : row) : string * string := (full_name r, username r).

(** The first occurrence of the viewer in the stories read in order. *)
Definition first_occurrence (target : Z) (stories : list (list row))
  : option row :=
  first_row_of target (concat stories).

(** The viewer's first row in each story where they appear, in story order. *)
Definition story_hits (target : Z) (stories : list (list row)) : list row :=
  flat_map
    (fun rows =>
       match first_row_of target rows with
       | Some r => [r]
       | None => []
       end)
    stories.

Definition named (r : row) : bool := truthy (full_name r).

(** The pair of stories [i] and [i + 1] brackets [when]. *)
Definition brackets (cts : list datetime) (when : datetime) (i : nat) : Prop :=
  exists s e : datetime,
    nth_error cts i = Some s /\ nth_error cts (S i) = Some e /\ s <= when <= e.

(** A record that is empty or has all four columns. *)
Definition complete (record : list string) : bool :=
  match record with
  | [] => true
  | _ :: _ => (4 <=? length record)%nat
  end.


(** A file with a bad id, an empty line, a bad date and a surplus column, and
    a date parser that knows one date. *)
Definition sample_records : list (list string) :=
  [ ["x"; "A"; "a"; "t0"];
    [];
    ["12"; "B"; "b"; "yesterday"];
    ["7"; "U"; "u"; "t0"; "surplus"] ]%string.

Definition sample_dates (s : string) : option datetime :=
  if String.eqb s "t0" then Some (seconds 0) else None.

(** Two stems whose keys are ints in non-decreasing order. *)
Definition int_key_le (py_int : string -> option Z) (a b : string) : Prop :=
  match py_int a, py_int b with
  | Some m, Some n => m <= n
  | _, _ => False
  end.

(** The characters of a string, and a string without a given character. *)
Definition chars (s : string) : list ascii := list_ascii_of_string s.

(** A landmark argument that [parse_args] rejects: it has no bar, or the text
    before its first bar is not a date. *)
Definition bad_mark (strip : string -> string)
    (fromisoformat_any : string -> option parsed_datetime) (spec : string)
  : Prop :=
  match split_bar spec with
  | None => True
  | Some (date_str, _) => fromisoformat_any (strip date_str) = None
  end.

(** What a landmark argument that is accepted becomes. *)
Definition mark_of (strip : string -> string)
    (fromisoformat_any : string -> option parsed_datetime) (spec : string)
    (landmark : datetime * string) : Prop :=
  exists date_str raw_label d,
    spec = (date_str ++ "|" ++ raw_label)%string /\
    ~ In "|"%char (chars date_str) /\
    fromisoformat_any (strip date_str) = Some d /\
    landmark = (assume_utc d, strip raw_label).

(** How a one-digit id and the one date of [sample_dates] are printed. *)
Definition digit_string (n : Z) : string :=
  String (ascii_of_nat (48 + Z.to_nat n)) EmptyString.

Definition sample_date_string (d : datetime) : string :=
  if d =? seconds 0 then "t0"%string else "?"%string.

(** * Properties *)

(** ** Indexing and sorting *)

Lemma getitem_of_nat {A : Type} (l : list A) (k : nat) :
  (k < length l)%nat ->
  exists a, nth_error l k = Some a /\ getitem l (Z.of_nat k) = Ok a.
Proof.
  intros Hk.
  destruct (nth_error l k) as [a|] eqn:E.
  - exists a; split; [reflexivity|].
    unfold getitem.
    assert ((Z.of_nat k <? 0) = false) as -> by (apply Z.ltb_ge; lia).
    assert (((0 <=? Z.of_nat k) && (Z.of_nat k <? Z.of_nat (length l))) = true) as ->.
    { apply andb_true_intro; split; [apply Z.leb_le | apply Z.ltb_lt]; lia. }
    now rewrite Nat2Z.id, E.
  - apply nth_error_None in E; lia.
Qed.

Lemma getitem_empty {A : Type} (i : Z) : getitem (@nil A) i = Raise IndexError.
Proof.
  unfold getitem; simpl.
  destruct (i <? 0) eqn:E.
  - assert ((0 <=? i + 0) = false) as -> by (apply Z.leb_gt; apply Z.ltb_lt in E; lia).
    reflexivity.
  - destruct (0 <=? i); simpl; [|reflexivity].
    assert ((i <? 0) = false) as -> by exact E.
    reflexivity.
Qed.

Lemma list_sort_perm (l : list Z) : Permutation l (list_sort l).
Proof. apply GapSort.Permuted_sort. Qed.

Lemma list_sort_length (l : list Z) : length (list_sort l) = length l.
Proof. symmetry; apply Permutation_length, list_sort_perm. Qed.

Lemma list_sort_sorted (l : list Z) : StronglySorted Z.le (list_sort l).
Proof.
  assert (StronglySorted (fun x y => is_true (GapOrder.leb x y)) (list_sort l)) as H.
  { apply GapSort.StronglySorted_sort.
    intros x y z; unfold GapOrder.leb, is_true; rewrite !Z.leb_le; lia. }
  induction H as [|a s Hs IH Ha]; constructor; [exact IH|].
  eapply Forall_impl; [|exact Ha].
  intros b; unfold GapOrder.leb, is_true; now rewrite Z.leb_le.
Qed.

Lemma sorted_nth_le (l : list Z) :
  StronglySorted Z.le l ->
  forall i j a b, (i <= j)%nat ->
    nth_error l i = Some a -> nth_error l j = Some b -> a <= b.
Proof.
  induction 1 as [|x s Hs IH Hx]; intros i j a b Hij Hi Hj.
  - destruct i; discriminate.
  - destruct i as [|i], j as [|j]; simpl in *.
    + inversion Hi; inversion Hj; subst; lia.
    + inversion Hi; subst.
      apply nth_error_In in Hj.
      rewrite Forall_forall in Hx; now apply Hx.
    + lia.
    + eapply IH; [|eassumption|eassumption]; lia.
Qed.

(** The indices of lines 145-146 are [n div 5] and [4n div 5]. *)
Lemma p20_idx_floor (n : nat) : (Z.of_nat n * 20) / 100 = Z.of_nat (n / 5).
Proof.
  rewrite Nat2Z.inj_div.
  change 100 with (5 * 20); change (Z.of_nat 5) with 5.
  now rewrite Z.div_mul_cancel_r by lia.
Qed.

Lemma p80_idx_floor (n : nat) : (Z.of_nat n * 80) / 100 = Z.of_nat (4 * n / 5).
Proof.
  rewrite Nat2Z.inj_div, Nat2Z.inj_mul.
  change (Z.of_nat 5) with 5; change (Z.of_nat 4) with 4.
  replace (Z.of_nat n * 80) with ((4 * Z.of_nat n) * 20) by lia.
  change 100 with (5 * 20).
  now rewrite Z.div_mul_cancel_r by lia.
Qed.

Lemma nearest_rank_in_range (n : nat) :
  (0 < n)%nat -> (n / 5 <= 4 * n / 5 /\ 4 * n / 5 < n)%nat.
Proof.
  intros Hn; split.
  - apply Nat.Div0.div_le_mono; lia.
  - apply Nat.Div0.div_lt_upper_bound; lia.
Qed.

(** The thresholds of a non-empty gap population. *)
Lemma thresholds_nonempty (gaps : list Z) :
  gaps <> [] ->
  exists skip full,
    thresholds gaps = Ok (skip, full) /\
    nth_error (list_sort gaps) (length gaps / 5) = Some skip /\
    nth_error (list_sort gaps) (4 * length gaps / 5) = Some full.
Proof.
  intros Hne.
  destruct gaps as [|g gaps']; [congruence|].
  unfold thresholds; cbv zeta.
  remember (g :: gaps') as gaps eqn:Hgaps.
  assert (0 < length gaps)%nat as Hpos by (subst gaps; simpl; lia).
  destruct (nearest_rank_in_range _ Hpos) as [Hle Hlt].
  rewrite list_sort_length, p20_idx_floor, p80_idx_floor.
  destruct (getitem_of_nat (list_sort gaps) (length gaps / 5)) as (a & Ha & Ga).
  { rewrite list_sort_length; lia. }
  destruct (getitem_of_nat (list_sort gaps) (4 * length gaps / 5)) as (b & Hb & Gb).
  { rewrite list_sort_length; lia. }
  exists a, b; rewrite Ga; cbn [bind]; rewrite Gb; cbn [bind]; auto.
Qed.

(** ** The gap population and its thresholds *)

Lemma pair_gaps_positive (cur_story nxt_story : views) (g : Z) :
  In g (pair_gaps cur_story nxt_story) -> 0 < g.
Proof.
  unfold pair_gaps; rewrite in_flat_map.
  intros ([u cur_time] & _ & Hg).
  destruct (dict_get nxt_story u) as [nxt_time|]; [|contradiction].
  cbv zeta in Hg.
  destruct (0 <? seconds_between nxt_time cur_time) eqn:E; [|contradiction].
  destruct Hg as [<-|[]]; now apply Z.ltb_lt.
Qed.

(** Gap positivity: no element of the accumulated population is [<= 0]. *)
Lemma gap_seconds_positive (story_views : list views) (g : Z) :
  In g (gap_seconds story_views) -> 0 < g.
Proof.
  unfold gap_seconds; rewrite in_flat_map.
  intros (idx & _ & Hg); eapply pair_gaps_positive; eassumption.
Qed.

(** What [threshold_pair] returns, in both cases of line 142. *)
Lemma threshold_pair_cases (story_views : list views) :
  exists skip full,
    threshold_pair story_views = Ok (skip, full) /\
    ((gap_seconds story_views = [] /\ skip = 30 /\ full = 60) \/
     (gap_seconds story_views <> [] /\
      nth_error (list_sort (gap_seconds story_views))
        (length (gap_seconds story_views) / 5) = Some skip /\
      nth_error (list_sort (gap_seconds story_views))
        (4 * length (gap_seconds story_views) / 5) = Some full)).
Proof.
  unfold threshold_pair.
  destruct (gap_seconds story_views) as [|g gaps] eqn:E.
  - exists 30, 60; split; [reflexivity|left; auto].
  - destruct (thresholds_nonempty (g :: gaps)) as (skip & full & H1 & H2 & H3);
      [discriminate|].
    exists skip, full; split; [exact H1|right; split; [discriminate|auto]].
Qed.

Lemma threshold_pair_bounds (story_views : list views) :
  exists skip full,
    threshold_pair story_views = Ok (skip, full) /\ 0 < skip /\ skip <= full.
Proof.
  destruct (threshold_pair_cases story_views)
    as (skip & full & Hok & [(_ & -> & ->) | (Hne & Hs & Hf)]).
  - exists 30, 60; split; [exact Hok|lia].
  - exists skip, full; split; [exact Hok|split].
    + apply (gap_seconds_positive story_views).
      eapply Permutation_in; [apply Permutation_sym, list_sort_perm|].
      eapply nth_error_In; exact Hs.
    + assert (0 < length (gap_seconds story_views))%nat as Hpos.
      { destruct (gap_seconds story_views); [congruence|simpl; lia]. }
      eapply sorted_nth_le;
        [apply list_sort_sorted| |exact Hs|exact Hf].
      apply nearest_rank_in_range; exact Hpos.
Qed.

(** C2: the estimator never fails; on an empty gap population it returns the
    defaults 30 and 60; on a population of size n > 0 it returns the elements
    at the indices floor(n/5) and floor(4n/5) of the population sorted in
    ascending order, with no interpolation. *)
Theorem threshold_pair_nearest_rank (story_views : list views) :
  let gaps := gap_seconds story_views in
  let n := length gaps in
  exists skip full,
    threshold_pair story_views = Ok (skip, full) /\
    match gaps with
    | [] => skip = 30 /\ full = 60
    | _ :: _ =>
        exists sorted,
          Permutation gaps sorted /\
          StronglySorted Z.le sorted /\
          nth_error sorted (n / 5) = Some skip /\
          nth_error sorted (4 * n / 5) = Some full
    end.
Proof.
  intros gaps n; subst gaps n.
  destruct (threshold_pair_cases story_views)
    as (skip & full & Hok & [(He & -> & ->) | (Hne & Hs & Hf)]).
  - exists 30, 60; split; [exact Hok|]; rewrite He; auto.
  - exists skip, full; split; [exact Hok|].
    destruct (gap_seconds story_views) as [|g gaps] eqn:E; [congruence|].
    exists (list_sort (g :: gaps)).
    split; [apply list_sort_perm|].
    split; [apply list_sort_sorted|auto].
Qed.

(** C6: for every input the pair returned satisfies
    [skip_threshold <= full_threshold]. *)
Theorem threshold_pair_ordered (story_views : list views) :
  exists skip full,
    threshold_pair story_views = Ok (skip, full) /\ skip <= full.
Proof.
  destruct (threshold_pair_bounds story_views) as (skip & full & Hok & _ & Hle).
  now exists skip, full.
Qed.

(** ** The loop over the stories *)

Lemma nth_error_combine {A B : Type} (l : list A) (l' : list B) (n : nat) :
  nth_error (combine l l') n =
  match nth_error l n, nth_error l' n with
  | Some a, Some b => Some (a, b)
  | _, _ => None
  end.
Proof.
  revert l' n; induction l as [|a l IH]; intros [|b l'] [|n]; simpl; auto.
  now destruct (nth_error l n).
Qed.

Lemma nth_error_enumerate {A : Type} (xs : list A) (i : nat) :
  nth_error (enumerate xs) i =
  match nth_error xs i with
  | Some x => Some (i, x)
  | None => None
  end.
Proof.
  unfold enumerate; rewrite nth_error_combine.
  destruct (nth_error xs i) as [x|] eqn:E.
  - assert (i < length xs)%nat as Hi by (apply nth_error_Some; congruence).
    now rewrite nth_error_seq, (proj2 (Nat.ltb_lt _ _) Hi).
  - now destruct (nth_error (seq 0 (length xs)) i).
Qed.

Lemma length_enumerate {A : Type} (xs : list A) :
  length (enumerate xs) = length xs.
Proof. unfold enumerate; rewrite length_combine, length_seq; lia. Qed.

Lemma length_observations (skip full : Z) (cts : list datetime)
    (uvs : list (option datetime)) :
  length cts = length uvs ->
  length (observations skip full cts uvs) = length cts.
Proof.
  intros H; unfold observations.
  rewrite length_map, length_enumerate, length_combine; lia.
Qed.

Lemma nth_error_observations (skip full : Z) (cts : list datetime)
    (uvs : list (option datetime)) (idx : nat) (c : datetime)
    (v : option datetime) :
  nth_error cts idx = Some c ->
  nth_error uvs idx = Some v ->
  nth_error (observations skip full cts uvs) idx =
  Some (observe skip full uvs idx c v).
Proof.
  intros Hc Hv; unfold observations.
  rewrite nth_error_map, nth_error_enumerate, nth_error_combine, Hc, Hv.
  reflexivity.
Qed.

Lemma nth_error_story (stories : list (list row)) (target : Z) (idx : nat)
    (rows : list row) :
  nth_error stories idx = Some rows ->
  nth_error (creation_times_of stories) idx = Some (snd (load_story rows)) /\
  nth_error (user_views_of (story_views_of stories) target) idx =
    Some (dict_get (fst (load_story rows)) target).
Proof.
  intros H; unfold creation_times_of, user_views_of, story_views_of.
  now rewrite !nth_error_map, H.
Qed.

Lemma length_story_sequences (stories : list (list row)) (target : Z) :
  length (creation_times_of stories) = length stories /\
  length (user_views_of (story_views_of stories) target) = length stories.
Proof.
  unfold creation_times_of, user_views_of, story_views_of.
  now rewrite !length_map.
Qed.

Section DatasetFacts.

Variable strftime : datetime -> string.

(** [dataset_of_rows] never raises, and its result is assembled from the
    thresholds of the gap population. *)
Lemma dataset_of_rows_ok (stories : list (list row)) (target : Z) :
  exists skip full,
    threshold_pair (story_views_of stories) = Ok (skip, full) /\
    0 < skip /\ skip <= full /\
    dataset_of_rows strftime stories target =
    Ok (mkDataset
          (map strftime (creation_times_of stories))
          (map snd (observations skip full (creation_times_of stories)
                      (user_views_of (story_views_of stories) target)))
          (map fst (observations skip full (creation_times_of stories)
                      (user_views_of (story_views_of stories) target)))
          (fst (lookup_names target stories))
          (snd (lookup_names target stories))
          (creation_times_of stories)).
Proof.
  destruct (threshold_pair_bounds (story_views_of stories))
    as (skip & full & Hok & Hpos & Hle).
  exists skip, full; repeat (split; [assumption|]).
  unfold dataset_of_rows; cbv zeta.
  rewrite Hok; cbn [bind].
  now destruct (lookup_names target stories).
Qed.

(** The observation of story [idx] in the result. *)
Lemma dataset_of_rows_nth (stories : list (list row)) (target : Z) :
  exists skip full ds,
    threshold_pair (story_views_of stories) = Ok (skip, full) /\
    0 < skip /\ skip <= full /\
    dataset_of_rows strftime stories target = Ok ds /\
    creation_times ds = creation_times_of stories /\
    length (x_labels ds) = length stories /\
    length (y_values ds) = length stories /\
    length (latencies ds) = length stories /\
    forall idx rows,
      nth_error stories idx = Some rows ->
      let o := observe skip full
                 (user_views_of (story_views_of stories) target) idx
                 (snd (load_story rows))
                 (dict_get (fst (load_story rows)) target) in
      nth_error (latencies ds) idx = Some (fst o) /\
      nth_error (y_values ds) idx = Some (snd o).
Proof.
  destruct (dataset_of_rows_ok stories target)
    as (skip & full & Hok & Hpos & Hle & Hds).
  destruct (length_story_sequences stories target) as [Lc Lu].
  eexists skip, full, _; repeat (split; [eassumption|]); cbn.
  split; [reflexivity|].
  rewrite !length_map, length_observations by congruence.
  repeat (split; [assumption|]).
  intros idx rows Hrows.
  destruct (nth_error_story stories target idx rows Hrows) as [Hc Hv].
  rewrite !nth_error_map, (nth_error_observations _ _ _ _ _ _ _ Hc Hv).
  split; reflexivity.
Qed.

End DatasetFacts.

(** ** Creation time and latency *)

Lemma seconds_between_nonneg (a b : datetime) : b <= a -> 0 <= seconds_between a b.
Proof. intros H; unfold seconds_between; apply Z.quot_pos; lia. Qed.

Lemma min_of_le (vs : list datetime) (v : datetime) :
  min_of v vs <= v /\ forall x, In x vs -> min_of v vs <= x.
Proof.
  unfold min_of; revert v; induction vs as [|w vs IH]; intros v; simpl.
  - split; [lia|contradiction].
  - destruct (IH (Z.min v w)) as [H1 H2]; split; [lia|].
    intros x [<-|Hx]; [lia|auto].
Qed.

Lemma min_of_in (vs : list datetime) (v : datetime) : In (min_of v vs) (v :: vs).
Proof.
  unfold min_of; revert v; induction vs as [|w vs IH]; intros v; simpl.
  - now left.
  - destruct (IH (Z.min v w)) as [H|H]; [|auto].
    rewrite <- H.
    destruct (Z.min_spec v w) as [[_ E]|[_ E]]; rewrite E; auto.
Qed.

Lemma dict_get_in_values {V : Type} (d : dict V) (k : Z) (v : V) :
  dict_get d k = Some v -> In v (dict_values d).
Proof.
  induction d as [|[k' v'] d IH]; simpl; [discriminate|].
  destruct (k' =? k); [intros [= ->]; now left|auto].
Qed.

(** The creation time of a story with views is the least of its view times. *)
Lemma load_story_min (rows : list row) (x : datetime) :
  In x (dict_values (fst (load_story rows))) ->
  In (snd (load_story rows)) (dict_values (fst (load_story rows))) /\
  snd (load_story rows) <= x.
Proof.
  unfold load_story; cbv zeta.
  destruct (dict_values (user_to_time_of rows)) as [|v vs] eqn:E; simpl.
  - contradiction.
  - rewrite E; intros Hx; split; [apply min_of_in|].
    destruct (min_of_le vs v) as [H1 H2].
    destruct Hx as [<-|Hx]; auto.
Qed.

Lemma load_story_creation_le (rows : list row) (target : Z) (vt : datetime) :
  dict_get (fst (load_story rows)) target = Some vt ->
  snd (load_story rows) <= vt.
Proof. intros H; apply load_story_min; eapply dict_get_in_values; eassumption. Qed.

(** ** Engagement values *)

Lemma classify_values (skip full : Z) (gap : option Z) :
  (classify skip full gap = 1 # 2 \/
   classify skip full gap = 3 # 4 \/
   classify skip full gap = 1)%Q.
Proof.
  unfold classify; destruct gap as [g|]; [|auto].
  destruct (g <=? skip); [auto|]; destruct (full <=? g); auto.
Qed.

Lemma next_gap_defined (uvs : list (option datetime)) (idx : nat)
    (vt nv : datetime) :
  nth_error uvs (S idx) = Some (Some nv) ->
  next_gap uvs idx vt = Some (seconds_between nv vt).
Proof.
  intros H; unfold next_gap.
  assert (S idx < length uvs)%nat as Hlt by (apply nth_error_Some; congruence).
  replace (idx + 1)%nat with (S idx) by lia.
  rewrite (proj2 (Nat.ltb_lt _ _) Hlt).
  now rewrite (nth_error_nth _ _ None H).
Qed.

(** ** The classified timeline *)

Section Classifier.

Variable strftime : datetime -> string.

(** C4: for every story sequence and every target viewer the classifier
    returns, and gives each story one engagement value among 0, 0.5, 0.75 and
    1 and one latency, which is [None] exactly when the engagement is 0. *)
Theorem classification_coverage (stories : list (list row)) (target : Z) :
  exists ds,
    dataset_of_rows strftime stories target = Ok ds /\
    length (y_values ds) = length stories /\
    length (latencies ds) = length stories /\
    forall idx, (idx < length stories)%nat ->
      exists y lat,
        nth_error (y_values ds) idx = Some y /\
        nth_error (latencies ds) idx = Some lat /\
        (y = 0 \/ y = 1 # 2 \/ y = 3 # 4 \/ y = 1)%Q /\
        (lat = None <-> y = 0%Q).
Proof.
  destruct (dataset_of_rows_nth strftime stories target)
    as (skip & full & ds & _ & _ & _ & Hds & _ & _ & Ly & Ll & Hnth).
  exists ds; repeat (split; [assumption|]).
  intros idx Hidx.
  destruct (nth_error stories idx) as [rows|] eqn:E;
    [|apply nth_error_None in E; lia].
  destruct (Hnth idx rows E) as [Hl Hy].
  eexists _, _; split; [exact Hy|split; [exact Hl|]].
  unfold observe.
  destruct (dict_get (fst (load_story rows)) target) as [vt|]; cbn [fst snd].
  - destruct (classify_values skip full
                (next_gap (user_views_of (story_views_of stories) target) idx vt))
      as [-> | [-> | ->]];
      (split; [auto|split; discriminate]).
  - split; [auto|split; reflexivity].
Qed.

(** C5: the creation time of a story is the least view time recorded for it,
    the target's view time is one of those, and so every latency that is
    defined is at least 0. *)
Theorem latency_nonnegative (stories : list (list row)) (target : Z) :
  exists ds,
    dataset_of_rows strftime stories target = Ok ds /\
    (forall idx rows vt,
       nth_error stories idx = Some rows ->
       dict_get (fst (load_story rows)) target = Some vt ->
       In vt (dict_values (fst (load_story rows))) /\
       In (snd (load_story rows)) (dict_values (fst (load_story rows))) /\
       (forall x, In x (dict_values (fst (load_story rows))) ->
                  snd (load_story rows) <= x) /\
       nth_error (creation_times ds) idx = Some (snd (load_story rows))) /\
    (forall idx lat,
       nth_error (latencies ds) idx = Some (Some lat) -> 0 <= lat).
Proof.
  destruct (dataset_of_rows_nth strftime stories target)
    as (skip & full & ds & _ & _ & _ & Hds & Hct & _ & _ & Ll & Hnth).
  exists ds; split; [assumption|split].
  - intros idx rows vt Hrows Hvt.
    pose proof (dict_get_in_values _ _ _ Hvt) as Hin.
    split; [exact Hin|].
    split; [apply (load_story_min rows vt Hin)|].
    split; [intros x Hx; apply (load_story_min rows x Hx)|].
    rewrite Hct; apply (nth_error_story stories target idx rows Hrows).
  - intros idx lat Hlat.
    destruct (nth_error stories idx) as [rows|] eqn:E.
    + destruct (Hnth idx rows E) as [Hl _].
      rewrite Hl in Hlat; unfold observe in Hlat.
      destruct (dict_get (fst (load_story rows)) target) as [vt|] eqn:Hvt;
        cbn [fst] in Hlat; [|discriminate].
      injection Hlat as <-.
      apply seconds_between_nonneg, (load_story_creation_le rows target vt Hvt).
    + apply nth_error_None in E.
      assert (idx < length (latencies ds))%nat by (apply nth_error_Some; congruence).
      lia.
Qed.

(** C8: every sequence of the result has one entry per input story, and a
    story without valid rows keeps its slot, with no views, the sentinel
    creation time, engagement 0 and no latency. *)
Theorem empty_story_keeps_slot (stories : list (list row)) (target : Z) :
  exists ds,
    dataset_of_rows strftime stories target = Ok ds /\
    length (x_labels ds) = length stories /\
    length (y_values ds) = length stories /\
    length (latencies ds) = length stories /\
    length (creation_times ds) = length stories /\
    forall idx,
      nth_error stories idx = Some [] ->
      nth_error (story_views_of stories) idx = Some [] /\
      nth_error (creation_times ds) idx = Some datetime_min_utc /\
      nth_error (y_values ds) idx = Some 0%Q /\
      nth_error (latencies ds) idx = Some None.
Proof.
  destruct (dataset_of_rows_nth strftime stories target)
    as (skip & full & ds & _ & _ & _ & Hds & Hct & Lx & Ly & Ll & Hnth).
  exists ds; repeat (split; [assumption|]).
  split.
  { rewrite Hct; apply (length_story_sequences stories target). }
  intros idx Hrows.
  destruct (Hnth idx [] Hrows) as [Hl Hy].
  destruct (nth_error_story stories target idx [] Hrows) as [Hc _].
  split; [|split; [|split]].
  - unfold story_views_of; now rewrite !nth_error_map, Hrows.
  - rewrite Hct; exact Hc.
  - exact Hy.
  - exact Hl.
Qed.

(** C10: the skip threshold is always positive, since every gap of the
    population is at least one second and the fallback is 30; hence a story
    whose gap to the target's next view is defined and not positive is
    classified 0.5. *)
Theorem nonpositive_gap_is_swiped (stories : list (list row)) (target : Z) :
  let user_views := user_views_of (story_views_of stories) target in
  exists skip full ds,
    threshold_pair (story_views_of stories) = Ok (skip, full) /\
    dataset_of_rows strftime stories target = Ok ds /\
    (forall g, In g (gap_seconds (story_views_of stories)) -> 1 <= g) /\
    0 < skip /\
    forall idx view_time next_view,
      nth_error user_views idx = Some (Some view_time) ->
      nth_error user_views (S idx) = Some (Some next_view) ->
      seconds_between next_view view_time <= 0 ->
      nth_error (y_values ds) idx = Some (1 # 2)%Q.
Proof.
  intros user_views; subst user_views.
  destruct (dataset_of_rows_nth strftime stories target)
    as (skip & full & ds & Hth & Hpos & _ & Hds & _ & _ & _ & _ & Hnth).
  exists skip, full, ds; repeat (split; [assumption|]).
  split.
  { intros g Hg; apply gap_seconds_positive in Hg; lia. }
  split; [assumption|].
  intros idx vt nv Hvt Hnv Hgap.
  destruct (nth_error stories idx) as [rows|] eqn:E.
  - destruct (Hnth idx rows E) as [_ Hy].
    destruct (nth_error_story stories target idx rows E) as [_ Hv].
    rewrite Hvt in Hv; injection Hv as Hv; rewrite <- Hv in Hy.
    rewrite Hy; unfold observe; cbn [snd].
    rewrite (next_gap_defined _ idx vt nv Hnv); unfold classify.
    now rewrite (proj2 (Z.leb_le _ _)) by lia.
  - apply nth_error_None in E.
    assert (idx < length (user_views_of (story_views_of stories) target))%nat
      by (apply nth_error_Some; congruence).
    destruct (length_story_sequences stories target); lia.
Qed.

End Classifier.

(** ** Ties between the thresholds *)

Section Ties.

Variable strftime : datetime -> string.

(** C1, as the code has it: when the gap to the target's next view equals both
    thresholds the story is classified 0.5, the swiped-past outcome; in the
    three-story scenario the thresholds are both 95, story 0 gets engagement
    0.5 with latency 10, story 1 engagement 1 with latency 5, and story 2
    engagement 0 with no latency. *)
Theorem tie_is_swiped_past (stories : list (list row)) (target : Z) :
  let user_views := user_views_of (story_views_of stories) target in
  (exists skip full ds,
     threshold_pair (story_views_of stories) = Ok (skip, full) /\
     dataset_of_rows strftime stories target = Ok ds /\
     forall idx view_time next_view,
       nth_error user_views idx = Some (Some view_time) ->
       nth_error user_views (S idx) = Some (Some next_view) ->
       seconds_between next_view view_time = skip ->
       skip = full ->
       nth_error (y_values ds) idx = Some (1 # 2)%Q) /\
  threshold_pair (story_views_of tie_scenario) = Ok (95, 95) /\
  exists ds,
    dataset_of_rows strftime tie_scenario 7 = Ok ds /\
    y_values ds = [(1 # 2)%Q; 1%Q; 0%Q] /\
    latencies ds = [Some 10; Some 5; None].
Proof.
  intros user_views; subst user_views; split; [|split].
  - destruct (dataset_of_rows_nth strftime stories target)
      as (skip & full & ds & Hth & _ & _ & Hds & _ & _ & _ & _ & Hnth).
    exists skip, full, ds; repeat (split; [assumption|]).
    intros idx vt nv Hvt Hnv Hgap _.
    destruct (nth_error stories idx) as [rows|] eqn:E.
    + destruct (Hnth idx rows E) as [_ Hy].
      destruct (nth_error_story stories target idx rows E) as [_ Hv].
      rewrite Hvt in Hv; injection Hv as Hv; rewrite <- Hv in Hy.
      rewrite Hy; unfold observe; cbn [snd].
      rewrite (next_gap_defined _ idx vt nv Hnv), Hgap; unfold classify.
      now rewrite Z.leb_refl.
    + apply nth_error_None in E.
      assert (idx < length (user_views_of (story_views_of stories) target))%nat
        by (apply nth_error_Some; congruence).
      destruct (length_story_sequences stories target); lia.
  - vm_compute; reflexivity.
  - eexists; split; [vm_compute; reflexivity|split; reflexivity].
Qed.

End Ties.

(** C1, as the claim states it, fails in its own scenario: the only gap of
    the population is 95, both thresholds are 95, the target's gap after
    story 0 is 95, and story 0 gets engagement 0.5, not 1. *)
Lemma tie_favours_full_counterexample :
  gap_seconds (story_views_of tie_scenario) = [95] /\
  threshold_pair (story_views_of tie_scenario) = Ok (95, 95) /\
  next_gap (user_views_of (story_views_of tie_scenario) 7) 0 (seconds 10)
    = Some 95 /\
  (exists ds,
     dataset_of_rows (fun _ => EmptyString) tie_scenario 7 = Ok ds /\
     nth_error (y_values ds) 0 = Some (1 # 2)%Q /\
     nth_error (latencies ds) 0 = Some (Some 10)) /\
  (1 # 2)%Q <> 1%Q.
Proof.
  split; [vm_compute; reflexivity|].
  split; [vm_compute; reflexivity|].
  split; [vm_compute; reflexivity|].
  split; [|discriminate].
  eexists; split; [vm_compute; reflexivity|split; reflexivity].
Qed.

(** ** The target's names *)

Lemma first_row_of_app (target : Z) (rows rows' : list row) :
  first_row_of target (rows ++ rows') =
  match first_row_of target rows with
  | Some r => Some r
  | None => first_row_of target rows'
  end.
Proof.
  induction rows as [|r rows IH]; simpl; [reflexivity|].
  destruct (uid r =? target); [reflexivity|exact IH].
Qed.

Lemma first_occurrence_hits (target : Z) (stories : list (list row)) :
  first_occurrence target stories = hd_error (story_hits target stories).
Proof.
  unfold first_occurrence, story_hits.
  induction stories as [|rows stories IH]; simpl; [reflexivity|].
  rewrite first_row_of_app.
  now destruct (first_row_of target rows).
Qed.

Lemma first_row_of_none (target : Z) (rows : list row) :
  (forall r, In r rows -> uid r <> target) -> first_row_of target rows = None.
Proof.
  induction rows as [|r rows IH]; simpl; intros H; [reflexivity|].
  destruct (uid r =? target) eqn:E.
  - apply Z.eqb_eq in E; exfalso; apply (H r); auto.
  - apply IH; intros; apply H; auto.
Qed.

Lemma story_hits_absent (target : Z) (stories : list (list row)) :
  (forall rows r, In rows stories -> In r rows -> uid r <> target) ->
  story_hits target stories = [].
Proof.
  unfold story_hits.
  induction stories as [|rows stories IH]; intros Hnone; [reflexivity|]; simpl.
  rewrite (first_row_of_none target rows).
  - apply IH; intros rows' r Hin; apply Hnone; now right.
  - intros r; apply Hnone; now left.
Qed.

Lemma last_cons {A : Type} (l : list A) (a d : A) : last (a :: l) d = last l a.
Proof.
  revert a d; induction l as [|b l IH]; intros a d; [reflexivity|].
  change (last (a :: b :: l) d) with (last (b :: l) d).
  now rewrite !IH.
Qed.

(** The outer loop, started with an empty name. *)
Lemma scan_names_hits (target : Z) (stories : list (list row))
    (fn un : string) :
  truthy fn = false ->
  scan_names target stories fn un =
  match find named (story_hits target stories) with
  | Some r => names_of r
  | None => last (map names_of (story_hits target stories)) (fn, un)
  end.
Proof.
  revert fn un; induction stories as [|rows stories IH]; intros fn un Hfn.
  - reflexivity.
  - cbn [scan_names story_hits flat_map].
    fold (story_hits target stories).
    destruct (first_row_of target rows) as [r|]; cbn [app find].
    + unfold named at 1; destruct (truthy (full_name r)) eqn:Hr.
      * reflexivity.
      * rewrite IH by exact Hr.
        destruct (find named (story_hits target stories));
          [reflexivity|].
        cbn [map]; now rewrite last_cons.
    + rewrite Hfn; now apply IH.
Qed.

(** C9, as the code has it: the scan looks, story by story, at the viewer's
    first row, and stops at the first such row whose display name is not
    empty; if the viewer appears with empty display names only, the names are
    those of the viewer's first row in the last story where they appear; in
    particular the first occurrence is taken whenever its display name is
    not empty, and a viewer who never appears gets two empty strings. *)
Theorem lookup_names_first_named (target : Z) (stories : list (list row)) :
  lookup_names target stories =
    match find named (story_hits target stories) with
    | Some r => names_of r
    | None =>
        last (map names_of (story_hits target stories))
          (EmptyString, EmptyString)
    end /\
  (forall r, first_occurrence target stories = Some r ->
             full_name r <> EmptyString ->
             lookup_names target stories = names_of r) /\
  ((forall rows r, In rows stories -> In r rows -> uid r <> target) ->
   lookup_names target stories = (EmptyString, EmptyString)).
Proof.
  assert (lookup_names target stories =
          match find named (story_hits target stories) with
          | Some r => names_of r
          | None =>
              last (map names_of (story_hits target stories))
                (EmptyString, EmptyString)
          end) as H.
  { unfold lookup_names; cbn [truthy negb]; now apply scan_names_hits. }
  split; [exact H|split].
  - intros r Hr Hne; rewrite H.
    rewrite first_occurrence_hits in Hr.
    destruct (story_hits target stories) as [|r' hits]; [discriminate|].
    injection Hr as ->; cbn [find]; unfold named at 1.
    destruct (full_name r); [congruence|reflexivity].
  - intros Hnone; rewrite H.
    now rewrite (story_hits_absent target stories Hnone).
Qed.

(** C9, as the claim states it, fails when the first occurrence has an empty
    display name: the scan goes on, and a later story replaces both the name
    and the handle. *)
Lemma first_occurrence_counterexample :
  let stories :=
    [ [mkRow 7 "" "alice" (seconds 0)];
      [mkRow 7 "Bob" "bob" (seconds 60)] ] in
  option_map names_of (first_occurrence 7 stories)
    = Some (EmptyString, "alice"%string) /\
  lookup_names 7 stories = ("Bob"%string, "bob"%string).
Proof. split; reflexivity. Qed.

(** ** Landmark positions *)

Lemma adjacent_cons (a b : datetime) (l : list datetime) :
  adjacent (a :: b :: l) = (a, b) :: adjacent (b :: l).
Proof. reflexivity. Qed.

Lemma nth_error_adjacent (cts : list datetime) (i : nat) :
  nth_error (adjacent cts) i =
  match nth_error cts i, nth_error cts (S i) with
  | Some s, Some e => Some (s, e)
  | _, _ => None
  end.
Proof.
  revert i; induction cts as [|a [|b l] IH]; intros i.
  - now destruct i.
  - destruct i as [|[|i]]; reflexivity.
  - rewrite adjacent_cons; destruct i as [|i]; [reflexivity|].
    cbn [nth_error]; rewrite IH; reflexivity.
Qed.

Lemma adjacent_brackets (cts : list datetime) (when : datetime) (j : nat)
    (s e : datetime) :
  nth_error (adjacent cts) j = Some (s, e) ->
  s <= when <= e ->
  brackets cts when j.
Proof.
  intros Hp Hb; rewrite nth_error_adjacent in Hp.
  destruct (nth_error cts j) as [x|] eqn:Ex; [|discriminate].
  destruct (nth_error cts (S j)) as [y|] eqn:Ey; [|discriminate].
  injection Hp as -> ->; now exists s, e.
Qed.

Lemma bracket_scan_first (when : datetime) (pairs : list (datetime * datetime))
    (fallback : Q) :
  forall (k i : nat) (s e : datetime),
    nth_error pairs i = Some (s, e) ->
    s <= when <= e ->
    (forall j s' e', (j < i)%nat -> nth_error pairs j = Some (s', e') ->
                     ~ (s' <= when <= e')) ->
    bracket_scan when pairs k fallback =
    (inject_Z (Z.of_nat (k + i)) + frac_between s e when)%Q.
Proof.
  induction pairs as [|[s0 e0] pairs IH]; intros k i s e Hi Hb Hfirst.
  - destruct i; discriminate.
  - destruct i as [|i]; cbn [bracket_scan].
    + injection Hi as -> ->.
      rewrite (proj2 (Z.leb_le s when)), (proj2 (Z.leb_le when e)) by lia.
      now rewrite Nat.add_0_r.
    + assert (~ (s0 <= when <= e0)) as Hno
          by (apply (Hfirst 0%nat); [lia|reflexivity]).
      assert (((s0 <=? when) && (when <=? e0)) = false) as ->.
      { destruct (s0 <=? when) eqn:E1, (when <=? e0) eqn:E2; try reflexivity.
        apply Z.leb_le in E1, E2; lia. }
      rewrite (IH (S k) i s e Hi Hb).
      * now replace (S k + i)%nat with (k + S i)%nat by lia.
      * intros j s' e' Hj; apply (Hfirst (S j)); lia.
Qed.

Lemma bracket_scan_none (when : datetime) (pairs : list (datetime * datetime))
    (k : nat) (fallback : Q) :
  (forall s e, In (s, e) pairs -> ~ (s <= when <= e)) ->
  bracket_scan when pairs k fallback = fallback.
Proof.
  revert k; induction pairs as [|[s0 e0] pairs IH]; intros k Hno; [reflexivity|].
  cbn [bracket_scan].
  assert (((s0 <=? when) && (when <=? e0)) = false) as ->.
  { destruct (s0 <=? when) eqn:E1, (when <=? e0) eqn:E2; try reflexivity.
    apply Z.leb_le in E1, E2; exfalso; apply (Hno s0 e0); [now left|lia]. }
  apply IH; intros s e Hin; apply Hno; now right.
Qed.

(** Between a time at or before [when] and a last time after it there is a
    first adjacent pair that brackets [when]. *)
Lemma first_bracket_exists (when : datetime) (l : list datetime) :
  forall c0 : datetime,
    c0 <= when -> when < last (c0 :: l) c0 ->
    exists (i : nat) (s e : datetime),
      nth_error (c0 :: l) i = Some s /\
      nth_error (c0 :: l) (S i) = Some e /\
      s <= when <= e /\
      forall j, (j < i)%nat -> ~ brackets (c0 :: l) when j.
Proof.
  induction l as [|c1 l IH]; intros c0 H0 Hlast.
  - simpl in Hlast; lia.
  - destruct (Z_le_gt_dec when c1) as [Hle|Hgt].
    + exists 0%nat, c0, c1; repeat split; try reflexivity; try lia.
    + rewrite last_cons in Hlast.
      destruct (IH c1) as (i & s & e & Hs & He & Hb & Hfirst).
      * lia.
      * now rewrite last_cons in Hlast |- *.
      * exists (S i), s, e; repeat split; try assumption; try lia.
        intros [|j] Hj (s' & e' & Hs' & He' & Hb').
        -- injection Hs' as <-; injection He' as <-; lia.
        -- apply (Hfirst j); [lia|]; now exists s', e'.
Qed.

Lemma getitem_first (c0 : datetime) (l : list datetime) :
  getitem (c0 :: l) 0 = Ok c0.
Proof.
  destruct (getitem_of_nat (c0 :: l) 0) as (a & Ha & Hg); [simpl; lia|].
  injection Ha as <-; exact Hg.
Qed.

Lemma nth_error_last {A : Type} (l : list A) (a : A) :
  nth_error (a :: l) (length l) = Some (last (a :: l) a).
Proof.
  revert a; induction l as [|b l IH]; intros a; [reflexivity|].
  rewrite last_cons; cbn [length nth_error]; rewrite IH.
  now rewrite !last_cons.
Qed.

Lemma getitem_last (c0 : datetime) (l : list datetime) :
  getitem (c0 :: l) (-1) = Ok (last (c0 :: l) c0).
Proof.
  destruct (getitem_of_nat (c0 :: l) (length l)) as (a & Ha & Hg); [simpl; lia|].
  rewrite nth_error_last in Ha; injection Ha as <-.
  unfold getitem in *.
  change (-1 <? 0) with true; cbv iota.
  replace (-1 + Z.of_nat (length (c0 :: l))) with (Z.of_nat (length l))
    by (cbn [length]; lia).
  assert ((Z.of_nat (length l) <? 0) = false) as E by (apply Z.ltb_ge; lia).
  now rewrite E in Hg.
Qed.

Lemma landmark_x_no_story (when : datetime) :
  landmark_x [] when = Raise IndexError.
Proof. reflexivity. Qed.

(** The landmark loop past its two edge tests. *)
Lemma landmark_x_inner (c0 : datetime) (rest : list datetime) (when : datetime) :
  c0 < when < last (c0 :: rest) c0 ->
  landmark_x (c0 :: rest) when =
  Ok (bracket_scan when (adjacent (c0 :: rest)) 0 (right_edge (c0 :: rest))).
Proof.
  intros [H0 Hl]; unfold landmark_x.
  rewrite getitem_first; cbn [bind].
  rewrite (proj2 (Z.leb_gt _ _)) by lia.
  rewrite getitem_last; cbn [bind].
  now rewrite (proj2 (Z.leb_gt _ _)) by lia.
Qed.

(** C3: with N stories, the cases read in the order given, a landmark at or
    before the first creation time is placed at -0.5; otherwise one at or
    after the last creation time is placed at N - 0.5; otherwise it is placed
    at i + frac for the first adjacent pair (i, i + 1) whose creation times
    bracket it, where frac is 0.5 when the two times are equal and
    (when - start) / (end - start) when they differ; and N - 0.5 is returned
    when no pair brackets it. Such a pair always exists in the third case, so
    the last one is also stated for the scan of any list of pairs. *)
Theorem landmark_x_cases (c0 : datetime) (rest : list datetime)
    (when : datetime) :
  let cts := c0 :: rest in
  let N := inject_Z (Z.of_nat (length cts)) in
  let c_last := last cts c0 in
  (when <= c0 -> landmark_x cts when = Ok (- (1 # 2))%Q) /\
  (c0 < when -> c_last <= when -> landmark_x cts when = Ok (N - (1 # 2))%Q) /\
  (c0 < when < c_last ->
   exists (i : nat) (s e : datetime),
     nth_error cts i = Some s /\
     nth_error cts (S i) = Some e /\
     s <= when <= e /\
     (forall j, (j < i)%nat -> ~ brackets cts when j) /\
     landmark_x cts when =
     Ok (inject_Z (Z.of_nat i) +
         (if e =? s then 1 # 2
          else inject_Z (when - s) / inject_Z (e - s)))%Q) /\
  (c0 < when < c_last ->
   (forall j, ~ brackets cts when j) ->
   landmark_x cts when = Ok (N - (1 # 2))%Q) /\
  (forall pairs k,
     (forall s e, In (s, e) pairs -> ~ (s <= when <= e)) ->
     bracket_scan when pairs k (N - (1 # 2))%Q = (N - (1 # 2))%Q).
Proof.
  intros cts N c_last; subst cts N c_last.
  split; [|split; [|split; [|split]]].
  - intros H; unfold landmark_x.
    rewrite getitem_first; cbn [bind].
    now rewrite (proj2 (Z.leb_le _ _)) by lia.
  - intros H0 Hl; unfold landmark_x.
    rewrite getitem_first; cbn [bind].
    rewrite (proj2 (Z.leb_gt _ _)) by lia.
    rewrite getitem_last; cbn [bind].
    now rewrite (proj2 (Z.leb_le _ _)) by lia.
  - intros H.
    destruct (first_bracket_exists when rest c0) as (i & s & e & Hs & He & Hb & Hf);
      [apply Z.lt_le_incl, H|apply H|].
    exists i, s, e; repeat (split; [assumption|]).
    rewrite (landmark_x_inner c0 rest when H).
    rewrite (bracket_scan_first when _ _ 0 i s e); [reflexivity| |exact Hb|].
    + now rewrite nth_error_adjacent, Hs, He.
    + intros j s' e' Hj Hp Hb'.
      apply (Hf j Hj), (adjacent_brackets _ _ _ _ _ Hp Hb').
  - intros H Hno.
    rewrite (landmark_x_inner c0 rest when H).
    unfold right_edge; f_equal; apply bracket_scan_none.
    intros s e Hin Hb.
    apply In_nth_error in Hin as (j & Hj).
    apply (Hno j), (adjacent_brackets _ _ _ _ _ Hj Hb).
  - intros pairs k Hno; now apply bracket_scan_none.
Qed.

(** The landmark of the second scenario: halfway between two stories created
    at 0 s and 100 s. *)
Example landmark_halfway :
  exists x, landmark_x [seconds 0; seconds 100] (seconds 50) = Ok x /\
            (x == 1 # 2)%Q.
Proof. eexists; split; [reflexivity|reflexivity]. Qed.

(** With one story, a landmark at its creation time meets the first test. *)
Example landmark_single_story (c0 : datetime) :
  landmark_x [c0] c0 = Ok (- (1 # 2))%Q.
Proof.
  unfold landmark_x; rewrite getitem_first; cbn [bind].
  now rewrite Z.leb_refl.
Qed.

(** ** Reading the files *)

Section Reading.

Variable py_int : string -> option Z.
Variable fromisoformat : string -> option datetime.
Variable strftime : datetime -> string.

Lemma build_dataset_no_files (target : Z) :
  build_dataset py_int fromisoformat strftime [] target = Raise SystemExit.
Proof. reflexivity. Qed.

(** A row whose id or date does not parse is dropped, and the rest of the
    file is read. *)
Lemma read_story_csv_skips_bad_id (u : string) (cells : list string)
    (records : list (list string)) :
  py_int u = None ->
  read_story_csv py_int fromisoformat ((u :: cells) :: records) =
  read_story_csv py_int fromisoformat records.
Proof.
  intros H; cbn [read_story_csv read_row]; rewrite H; cbn [bind].
  now destruct (read_story_csv py_int fromisoformat records).
Qed.

Lemma read_story_csv_skips_bad_date (u fn un d : string) (more : list string)
    (records : list (list string)) :
  fromisoformat d = None ->
  read_story_csv py_int fromisoformat ((u :: fn :: un :: d :: more) :: records) =
  read_story_csv py_int fromisoformat records.
Proof.
  intros H; cbn [read_story_csv read_row]; rewrite H.
  destruct (py_int u); cbn [bind];
    now destruct (read_story_csv py_int fromisoformat records).
Qed.

Lemma read_row_raises (record : list string) (e : exn) :
  read_row py_int fromisoformat record = Raise e -> e = TypeError.
Proof.
  unfold read_row.
  destruct record as [|u cells]; [discriminate|].
  destruct (py_int u); [|discriminate].
  destruct cells as [|fn [|un [|d more]]]; try (now intros [= <-]).
  destruct (fromisoformat d); discriminate.
Qed.

Lemma read_story_csv_raises (records : list (list string)) (e : exn) :
  read_story_csv py_int fromisoformat records = Raise e -> e = TypeError.
Proof.
  induction records as [|record records IH]; cbn [read_story_csv];
    [discriminate|].
  destruct (read_row py_int fromisoformat record) as [r|e'] eqn:E; cbn [bind].
  - destruct (read_story_csv py_int fromisoformat records); cbn [bind];
      [discriminate|].
    intros [= <-]; now apply IH.
  - intros [= <-]; eapply read_row_raises; eassumption.
Qed.

Lemma read_story_csv_complete (records : list (list string)) :
  forallb complete records = true ->
  exists rows, read_story_csv py_int fromisoformat records = Ok rows.
Proof.
  induction records as [|record records IH]; cbn [forallb read_story_csv].
  - now exists [].
  - intros H; apply andb_prop in H as [Hc Hr].
    destruct (IH Hr) as (rows & ->).
    assert (exists r, read_row py_int fromisoformat record = Ok r) as (r & ->).
    { unfold read_row.
      destruct record as [|u [|fn [|un [|d more]]]]; try discriminate;
        [now eexists|].
      destruct (py_int u); [|now eexists].
      destruct (fromisoformat d); now eexists. }
    cbn [bind]; now eexists.
Qed.

Lemma mapM_raises {A B : Type} (f : A -> exc B) (l : list A) (e : exn) :
  mapM f l = Raise e -> exists a, In a l /\ f a = Raise e.
Proof.
  induction l as [|a l IH]; cbn [mapM]; [discriminate|].
  destruct (f a) as [b|e'] eqn:E; cbn [bind].
  - destruct (mapM f l); cbn [bind]; [discriminate|].
    intros [= <-]; destruct IH as (a' & Hin & Ha'); [reflexivity|].
    exists a'; split; [now right|exact Ha'].
  - intros [= <-]; exists a; split; [now left|exact E].
Qed.

Lemma mapM_ok {A B : Type} (f : A -> exc B) (l : list A) :
  (forall a, In a l -> exists b, f a = Ok b) ->
  exists bs, mapM f l = Ok bs /\ length bs = length l.
Proof.
  induction l as [|a l IH]; intros H; cbn [mapM].
  - now exists [].
  - destruct (H a) as (b & ->); [now left|].
    destruct IH as (bs & -> & Hlen); [intros; apply H; now right|].
    cbn [bind]; exists (b :: bs); split; [reflexivity|simpl; lia].
Qed.

(** X11: the hard stop is raised exactly when there is no file. *)
Lemma build_dataset_system_exit (csv_files : list (list (list string)))
    (target : Z) :
  build_dataset py_int fromisoformat strftime csv_files target
    = Raise SystemExit <->
  csv_files = [].
Proof.
  split; [|intros ->; reflexivity].
  destruct csv_files as [|f fs]; [reflexivity|].
  unfold build_dataset.
  destruct (mapM (read_story_csv py_int fromisoformat) (f :: fs))
    as [stories|e] eqn:E; cbn [bind].
  - destruct (dataset_of_rows_ok strftime stories target)
      as (skip & full & _ & _ & _ & ->); discriminate.
  - apply mapM_raises in E as (a & _ & Ha).
    apply read_story_csv_raises in Ha; subst e; discriminate.
Qed.

(** When every record is empty or has its four columns, a non-empty directory
    gives a complete result, one entry per file. *)
Lemma build_dataset_complete (csv_files : list (list (list string)))
    (target : Z) :
  csv_files <> [] ->
  forallb (forallb complete) csv_files = true ->
  exists ds,
    build_dataset py_int fromisoformat strftime csv_files target = Ok ds /\
    length (y_values ds) = length csv_files /\
    length (latencies ds) = length csv_files /\
    length (creation_times ds) = length csv_files.
Proof.
  intros Hne Hc.
  destruct csv_files as [|f fs]; [congruence|].
  unfold build_dataset.
  destruct (mapM_ok (read_story_csv py_int fromisoformat) (f :: fs))
    as (stories & -> & Hlen).
  { intros a Ha; apply read_story_csv_complete.
    rewrite forallb_forall in Hc; now apply Hc. }
  cbn [bind].
  destruct (dataset_of_rows_nth strftime stories target)
    as (skip & full & ds & _ & _ & _ & Hds & Hct & _ & Ly & Ll & _).
  exists ds; split; [exact Hds|].
  rewrite Ly, Ll, Hct, (proj1 (length_story_sequences stories target)).
  now rewrite Hlen.
Qed.

(** C7, the failing input: a file whose only record has an id that parses
    but lacks the date column; [fromisoformat(None)] raises [TypeError],
    which [read_story_csv] does not catch, and [build_dataset] stops although
    there is a story. *)
Theorem build_dataset_short_record_raises (target : Z) :
  build_dataset decimal_int fromisoformat strftime
    [[["123"%string; "Alice"%string]]] target = Raise TypeError.
Proof. reflexivity. Qed.

End Reading.

(** ** Worked inputs *)

Example out_of_order_dataset :
  dataset_of_rows (fun _ => EmptyString) out_of_order_stories 7 =
  Ok (mkDataset
        [EmptyString; EmptyString; EmptyString]
        [(1 # 2)%Q; 1%Q; 0%Q]
        [Some 50; Some 0; None]
        "U" "u"
        [seconds 0; seconds 30; datetime_min_utc]).
Proof. vm_compute; reflexivity. Qed.

Example out_of_order_thresholds :
  gap_seconds (story_views_of out_of_order_stories) = [40] /\
  threshold_pair (story_views_of out_of_order_stories) = Ok (40, 40).
Proof. split; vm_compute; reflexivity. Qed.

(** A later row of the same viewer replaces the view time of an earlier one,
    and the name lookup takes the earlier row. *)
Example repeated_viewer :
  load_story [mkRow 7 "U" "u" (seconds 9); mkRow 7 "V" "v" (seconds 4)]
    = ([(7, seconds 4)], seconds 4) /\
  lookup_names 7 [[mkRow 7 "U" "u" (seconds 9); mkRow 7 "V" "v" (seconds 4)]]
    = ("U"%string, "u"%string).
Proof. split; reflexivity. Qed.

(** Rows that do not parse are dropped one by one. *)
Example malformed_rows_dropped :
  read_story_csv decimal_int
    (fun s => if String.eqb s "t0" then Some (seconds 0) else None)
    [ ["x"; "A"; "a"; "t0"];
      [];
      ["12"; "B"; "b"; "yesterday"];
      ["7"; "U"; "u"; "t0"; "surplus"] ]%string
  = Ok [mkRow 7 "U" "u" (seconds 0)].
Proof. reflexivity. Qed.

(** * Further properties of the code *)

(** ** The views of a story *)

Lemma dict_get_set {V : Type} (d : dict V) (k k' : Z) (v : V) :
  dict_get (dict_set d k v) k' = if k =? k' then Some v else dict_get d k'.
Proof.
  induction d as [|[k0 v0] d IH]; simpl.
  - reflexivity.
  - destruct (k0 =? k) eqn:E0; simpl.
    + apply Z.eqb_eq in E0; subst k0.
      now destruct (k =? k').
    + rewrite IH.
      destruct (k0 =? k') eqn:E1; [|reflexivity].
      apply Z.eqb_eq in E1; subst k0; now rewrite (Z.eqb_sym k k'), E0.
Qed.

Lemma dict_set_keys {V : Type} (d : dict V) (k : Z) (v : V) :
  map fst (dict_set d k v) =
  if existsb (Z.eqb k) (map fst d) then map fst d else map fst d ++ [k].
Proof.
  induction d as [|[k0 v0] d IH]; simpl; [reflexivity|].
  destruct (k0 =? k) eqn:E0.
  - rewrite (Z.eqb_sym k k0), E0; reflexivity.
  - rewrite (Z.eqb_sym k k0), E0; simpl; rewrite IH.
    now destruct (existsb (Z.eqb k) (map fst d)).
Qed.

Lemma user_to_time_of_snoc (rows : list row) (r : row) :
  user_to_time_of (rows ++ [r]) = dict_set (user_to_time_of rows) (uid r) (date r).
Proof. unfold user_to_time_of; now rewrite fold_left_app. Qed.

Lemma load_story_views (rows : list row) :
  fst (load_story rows) = user_to_time_of rows.
Proof.
  unfold load_story; cbv zeta.
  destruct (user_to_time_of rows) as [|kv d]; reflexivity.
Qed.

Lemma user_to_time_get (rows : list row) (u : Z) :
  dict_get (user_to_time_of rows) u = option_map date (first_row_of u (rev rows)).
Proof.
  induction rows as [|r rows IH] using rev_ind; [reflexivity|].
  rewrite user_to_time_of_snoc, dict_get_set, rev_app_distr; simpl.
  destruct (uid r =? u); [reflexivity|exact IH].
Qed.

Lemma user_to_time_keys (rows : list row) :
  NoDup (map fst (user_to_time_of rows)) /\
  forall u, In u (map fst (user_to_time_of rows)) <-> In u (map uid rows).
Proof.
  induction rows as [|r rows [IHn IHi]] using rev_ind.
  - split; [constructor|intros u; reflexivity].
  - rewrite user_to_time_of_snoc, dict_set_keys, map_app; simpl.
    destruct (existsb (Z.eqb (uid r)) (map fst (user_to_time_of rows))) eqn:E.
    + split; [exact IHn|].
      intros u; rewrite in_app_iff, IHi; simpl.
      split; [auto|].
      intros [H|[<-|[]]]; [exact H|].
      apply existsb_exists in E as (k & Hk & Ek).
      apply Z.eqb_eq in Ek; subst k; now apply IHi.
    + split.
      * apply NoDup_app; [exact IHn|repeat constructor; intros []| ].
        intros k Hk [<-|[]].
        assert (existsb (Z.eqb (uid r)) (map fst (user_to_time_of rows)) = true)
          as E' by (apply existsb_exists; exists (uid r); split;
                    [exact Hk|apply Z.eqb_refl]).
        congruence.
      * intros u; rewrite !in_app_iff, IHi; reflexivity.
Qed.

Lemma dict_set_in {V : Type} (d : dict V) (k : Z) (v : V) (kv : Z * V) :
  In kv (dict_set d k v) -> In kv d \/ kv = (k, v).
Proof.
  induction d as [|[k0 v0] d IH]; simpl.
  - intros [<-|[]]; now right.
  - destruct (k0 =? k) eqn:E; simpl.
    + apply Z.eqb_eq in E; subst k0.
      intros [<-|H]; [now right|left; now right].
    + intros [<-|H]; [left; now left|].
      destruct (IH H) as [H'|H']; [left; now right|now right].
Qed.

Lemma user_to_time_values (rows : list row) (kv : Z * datetime) :
  In kv (user_to_time_of rows) ->
  exists r, In r rows /\ kv = (uid r, date r).
Proof.
  induction rows as [|r rows IH] using rev_ind; [intros []|].
  rewrite user_to_time_of_snoc; intros H.
  apply dict_set_in in H as [H|H].
  - destruct (IH H) as (r' & Hin & E).
    exists r'; split; [apply in_or_app; now left|exact E].
  - exists r; split; [apply in_or_app; right; now left|exact H].
Qed.

Lemma first_row_of_some (u : Z) (rows : list row) (r : row) :
  first_row_of u rows = Some r -> In r rows /\ uid r = u.
Proof.
  induction rows as [|r0 rows IH]; simpl; [discriminate|].
  destruct (uid r0 =? u) eqn:E.
  - intros [= <-]; split; [now left|now apply Z.eqb_eq].
  - intros H; destruct (IH H); split; [now right|assumption].
Qed.

Lemma first_row_of_in (rows : list row) (r : row) :
  In r rows -> exists r', first_row_of (uid r) rows = Some r'.
Proof.
  induction rows as [|r0 rows IH]; simpl; [intros []|].
  destruct (uid r0 =? uid r) eqn:E; [now eexists|].
  intros [->|H]; [|auto].
  rewrite Z.eqb_refl in E; discriminate.
Qed.

Lemma uid_determines_row (rows : list row) (r r' : row) :
  NoDup (map uid rows) -> In r rows -> In r' rows -> uid r = uid r' -> r = r'.
Proof.
  induction rows as [|r0 rows IH]; simpl; [intros _ []|].
  intros Hnd; inversion Hnd as [|x l Hnotin Hnd']; subst.
  intros [->|Hr] [->|Hr'] E; auto.
  - exfalso; apply Hnotin; rewrite E; now apply in_map.
  - exfalso; apply Hnotin; rewrite <- E; now apply in_map.
Qed.

(** X1: within a story the view time of a user is the date of the user's last
    row. *)
Theorem view_time_is_last_row (rows : list row) (u : Z) :
  dict_get (fst (load_story rows)) u =
  option_map date (first_row_of u (rev rows)).
Proof. rewrite load_story_views; apply user_to_time_get. Qed.

(** X2: the views of a story hold each user once, and the users are those of
    the rows. *)
Theorem story_views_keys (rows : list row) :
  NoDup (map fst (fst (load_story rows))) /\
  forall u, In u (map fst (fst (load_story rows))) <-> In u (map uid rows).
Proof. rewrite load_story_views; apply user_to_time_keys. Qed.

Lemma load_story_creation_rows (rows : list row) :
  (rows <> [] -> exists r, In r rows /\ snd (load_story rows) = date r) /\
  (NoDup (map uid rows) ->
   forall r, In r rows -> snd (load_story rows) <= date r).
Proof.
  split.
  - intros Hne.
    destruct (dict_values (fst (load_story rows))) as [|v vs] eqn:E.
    + exfalso.
      rewrite load_story_views in E.
      destruct rows as [|r rows]; [congruence|].
      assert (In (uid r) (map fst (user_to_time_of (r :: rows)))) as Hin
          by (apply user_to_time_keys; now left).
      unfold dict_values in E; apply map_eq_nil in E; rewrite E in Hin.
      exact Hin.
    + destruct (load_story_min rows v) as [Hin _]; [rewrite E; now left|].
      unfold dict_values in Hin; rewrite load_story_views in Hin.
      apply in_map_iff in Hin as ([k t] & Ht & Hkv).
      destruct (user_to_time_values rows (k, t) Hkv) as (r & Hr & Er).
      exists r; split; [exact Hr|].
      injection Er as _ ->; now simpl in Ht.
  - intros Hnd r Hr.
    apply (load_story_creation_le rows (uid r)).
    rewrite load_story_views, user_to_time_get.
    destruct (first_row_of_in (rev rows) r) as (r' & Hr');
      [now apply in_rev in Hr|].
    rewrite Hr'; simpl; f_equal; f_equal.
    destruct (first_row_of_some _ _ _ Hr') as [Hin E].
    apply (uid_determines_row rows); auto.
    now apply in_rev.
Qed.

(** X3: the creation time of a story with rows is the date of one of its
    rows; when no user has two rows, it is the earliest date of all rows. *)
Theorem creation_time_of_rows (rows : list row) :
  (rows <> [] -> exists r, In r rows /\ snd (load_story rows) = date r) /\
  (NoDup (map uid rows) ->
   forall r, In r rows -> snd (load_story rows) <= date r).
Proof. apply load_story_creation_rows. Qed.

(** X4: for a file as [main.py] writes it, one row per user and the rows in
    the order of their dates, the creation time of the story is the date of
    the first row. *)
Theorem creation_time_is_first_row (r0 : row) (rows : list row) :
  NoDup (map uid (r0 :: rows)) ->
  StronglySorted Z.le (map date (r0 :: rows)) ->
  snd (load_story (r0 :: rows)) = date r0.
Proof.
  intros Hnd Hsorted.
  destruct (load_story_creation_rows (r0 :: rows)) as [Hex Hle].
  destruct Hex as (r & Hr & E); [discriminate|].
  specialize (Hle Hnd r0 (or_introl eq_refl)).
  assert (date r0 <= date r); [|lia].
  destruct Hr as [<-|Hr]; [lia|].
  cbn [map] in Hsorted; inversion Hsorted as [|x l _ Hfa]; subst.
  rewrite Forall_forall in Hfa; apply Hfa; now apply in_map.
Qed.

Lemma creation_time_is_first_row_witness :
  snd (load_story
         [mkRow 1 "A" "a" (seconds 0); mkRow 7 "U" "u" (seconds 10)])
  = date (mkRow 1 "A" "a" (seconds 0)).
Proof.
  apply (creation_time_is_first_row (mkRow 1 "A" "a" (seconds 0))
           [mkRow 7 "U" "u" (seconds 10)]).
  - repeat constructor; simpl; intuition discriminate.
  - repeat constructor; unfold seconds; simpl; lia.
Defined.

(** ** The gap population *)

Lemma pair_gaps_in (cur_story nxt_story : views) (g : Z) :
  In g (pair_gaps cur_story nxt_story) <->
  exists (u : Z) (cur_time nxt_time : datetime),
    In (u, cur_time) cur_story /\
    dict_get nxt_story u = Some nxt_time /\
    g = seconds_between nxt_time cur_time /\
    0 < g.
Proof.
  unfold pair_gaps; rewrite in_flat_map; split.
  - intros ([u cur_time] & Hin & Hg).
    destruct (dict_get nxt_story u) as [nxt_time|] eqn:E; [|contradiction].
    cbv zeta in Hg.
    destruct (0 <? seconds_between nxt_time cur_time) eqn:Hpos; [|contradiction].
    destruct Hg as [<-|[]].
    exists u, cur_time, nxt_time; repeat split; auto.
    now apply Z.ltb_lt.
  - intros (u & cur_time & nxt_time & Hin & Hget & -> & Hpos).
    exists (u, cur_time); split; [exact Hin|].
    rewrite Hget; cbv zeta.
    rewrite (proj2 (Z.ltb_lt _ _) Hpos); now left.
Qed.

Lemma adjacent_stories (story_views : list views) (idx : nat) :
  In idx (seq 0 (length story_views - 1)) <->
  exists cur nxt : views,
    nth_error story_views idx = Some cur /\
    nth_error story_views (S idx) = Some nxt.
Proof.
  rewrite in_seq; split.
  - intros [_ H].
    destruct (nth_error story_views idx) as [cur|] eqn:E1;
      [|apply nth_error_None in E1; lia].
    destruct (nth_error story_views (S idx)) as [nxt|] eqn:E2;
      [|apply nth_error_None in E2; lia].
    now exists cur, nxt.
  - intros (cur & nxt & _ & H).
    assert (S idx < length story_views)%nat
      by (apply nth_error_Some; congruence).
    lia.
Qed.

Lemma gap_seconds_in (story_views : list views) (g : Z) :
  In g (gap_seconds story_views) <->
  exists (idx : nat) (cur nxt : views) (u : Z) (cur_time nxt_time : datetime),
    nth_error story_views idx = Some cur /\
    nth_error story_views (S idx) = Some nxt /\
    In (u, cur_time) cur /\
    dict_get nxt u = Some nxt_time /\
    g = seconds_between nxt_time cur_time /\
    0 < g.
Proof.
  unfold gap_seconds; rewrite in_flat_map; split.
  - intros (idx & Hidx & Hg).
    apply adjacent_stories in Hidx as (cur & nxt & Hc & Hn).
    erewrite (nth_error_nth _ _ _ Hc), (nth_error_nth _ _ _ Hn) in Hg.
    apply pair_gaps_in in Hg as (u & ct & nt & H).
    now exists idx, cur, nxt, u, ct, nt.
  - intros (idx & cur & nxt & u & ct & nt & Hc & Hn & H).
    exists idx; split; [apply adjacent_stories; now exists cur, nxt|].
    erewrite (nth_error_nth _ _ _ Hc), (nth_error_nth _ _ _ Hn).
    apply pair_gaps_in; now exists u, ct, nt.
Qed.

(** X5: a number is in the gap population exactly when it is the positive
    number of whole seconds between the views, by one user, of two adjacent
    stories. *)
Theorem gap_population (story_views : list views) (g : Z) :
  In g (gap_seconds story_views) <->
  exists (idx : nat) (cur nxt : views) (u : Z) (cur_time nxt_time : datetime),
    nth_error story_views idx = Some cur /\
    nth_error story_views (S idx) = Some nxt /\
    In (u, cur_time) cur /\
    dict_get nxt u = Some nxt_time /\
    g = seconds_between nxt_time cur_time /\
    0 < g.
Proof. apply gap_seconds_in. Qed.

(** X6: both thresholds are at least one second, and when the gap population
    is not empty both are gaps of the population. *)
Theorem thresholds_are_gaps (story_views : list views) :
  exists skip full,
    threshold_pair story_views = Ok (skip, full) /\
    1 <= skip /\ 1 <= full /\
    (gap_seconds story_views <> [] ->
     In skip (gap_seconds story_views) /\ In full (gap_seconds story_views)).
Proof.
  destruct (threshold_pair_bounds story_views) as (skip & full & Hok & Hpos & Hle).
  exists skip, full; split; [exact Hok|].
  split; [lia|split; [lia|]].
  intros Hne.
  destruct (threshold_pair_cases story_views)
    as (skip' & full' & Hok' & [(He & _) | (_ & Hs & Hf)]); [congruence|].
  rewrite Hok in Hok'; injection Hok' as <- <-.
  split; (eapply Permutation_in; [apply Permutation_sym, list_sort_perm|];
          eapply nth_error_In; eassumption).
Qed.

Lemma gap_seconds_short (story_views : list views) :
  (length story_views <= 1)%nat -> gap_seconds story_views = [].
Proof.
  intros H; unfold gap_seconds.
  now replace (length story_views - 1)%nat with 0%nat by lia.
Qed.

(** X7: with fewer than two stories, or when no user's view of a story is
    followed at least a second later by a view of the next one, the
    thresholds are the defaults 30 and 60. *)
Theorem default_thresholds (story_views : list views) :
  ((length story_views <= 1)%nat -> threshold_pair story_views = Ok (30, 60)) /\
  ((forall (idx : nat) (cur nxt : views) (u : Z) (cur_time nxt_time : datetime),
      nth_error story_views idx = Some cur ->
      nth_error story_views (S idx) = Some nxt ->
      In (u, cur_time) cur ->
      dict_get nxt u = Some nxt_time ->
      seconds_between nxt_time cur_time <= 0) ->
   threshold_pair story_views = Ok (30, 60)).
Proof.
  split.
  - intros H; unfold threshold_pair; now rewrite gap_seconds_short.
  - intros H; unfold threshold_pair.
    destruct (gap_seconds story_views) as [|g gaps] eqn:E; [reflexivity|].
    exfalso.
    assert (In g (gap_seconds story_views)) as Hg by (rewrite E; now left).
    apply gap_seconds_in in Hg
      as (idx & cur & nxt & u & ct & nt & Hc & Hn & Hin & Hget & -> & Hpos).
    specialize (H idx cur nxt u ct nt Hc Hn Hin Hget); lia.
Qed.

(** ** More on the classified timeline *)

(** X8: whatever the thresholds, a longer gap never gives a lower engagement
    value. *)
Theorem classify_monotone (threshold_skip threshold_full g1 g2 : Z) :
  g1 <= g2 ->
  (classify threshold_skip threshold_full (Some g1) <=
   classify threshold_skip threshold_full (Some g2))%Q.
Proof.
  intros H; unfold classify.
  destruct (g1 <=? threshold_skip) eqn:E1, (g2 <=? threshold_skip) eqn:E2,
           (threshold_full <=? g1) eqn:E3, (threshold_full <=? g2) eqn:E4;
    try (apply Z.leb_le in E1); try (apply Z.leb_gt in E1);
    try (apply Z.leb_le in E2); try (apply Z.leb_gt in E2);
    try (apply Z.leb_le in E3); try (apply Z.leb_gt in E3);
    try (apply Z.leb_le in E4); try (apply Z.leb_gt in E4);
    try lia; unfold Qle; simpl; lia.
Qed.

Lemma classify_monotone_witness :
  (classify 30 60 (Some 10%Z) <= classify 30 60 (Some 45%Z))%Q.
Proof. apply (classify_monotone 30 60 10 45); lia. Defined.

Lemma next_gap_undefined (uvs : list (option datetime)) (idx : nat)
    (vt : datetime) :
  nth_error uvs (S idx) = None \/ nth_error uvs (S idx) = Some None ->
  next_gap uvs idx vt = None.
Proof.
  intros H; unfold next_gap.
  replace (idx + 1)%nat with (S idx) by lia.
  destruct (S idx <? length uvs)%nat eqn:E; [|reflexivity].
  destruct H as [H|H].
  - apply nth_error_None in H; apply Nat.ltb_lt in E; lia.
  - now rewrite (nth_error_nth _ _ None H).
Qed.

Lemma lookup_names_absent (target : Z) (stories : list (list row)) :
  (forall rows r, In rows stories -> In r rows -> uid r <> target) ->
  fst (lookup_names target stories) = EmptyString /\
  snd (lookup_names target stories) = EmptyString.
Proof.
  intros H; unfold lookup_names; cbn [truthy negb].
  rewrite scan_names_hits by reflexivity.
  now rewrite (story_hits_absent target stories H).
Qed.

Section Timeline.

Variable strftime : datetime -> string.

(** X9: a story the target viewed gets engagement 1 when it is the last story
    or when the target did not view the next one. *)
Theorem no_next_view_is_full (stories : list (list row)) (target : Z) :
  let user_views := user_views_of (story_views_of stories) target in
  exists ds,
    dataset_of_rows strftime stories target = Ok ds /\
    forall (idx : nat) (view_time : datetime),
      nth_error user_views idx = Some (Some view_time) ->
      nth_error user_views (S idx) = None \/
      nth_error user_views (S idx) = Some None ->
      nth_error (y_values ds) idx = Some 1%Q.
Proof.
  intros user_views; subst user_views.
  destruct (dataset_of_rows_nth strftime stories target)
    as (skip & full & ds & _ & _ & _ & Hds & _ & _ & _ & _ & Hnth).
  exists ds; split; [exact Hds|].
  intros idx vt Hvt Hnext.
  destruct (nth_error stories idx) as [rows|] eqn:E.
  - destruct (Hnth idx rows E) as [_ Hy].
    destruct (nth_error_story stories target idx rows E) as [_ Hv].
    rewrite Hvt in Hv; injection Hv as Hv; rewrite <- Hv in Hy.
    rewrite Hy; unfold observe; cbn [snd].
    now rewrite (next_gap_undefined _ idx vt Hnext).
  - apply nth_error_None in E.
    assert (idx < length (user_views_of (story_views_of stories) target))%nat
      by (apply nth_error_Some; congruence).
    destruct (length_story_sequences stories target); lia.
Qed.

(** X10: for a viewer who is in no row the result is the timeline of a viewer
    who saw nothing: engagement 0 and no latency for every story, and two
    empty names. *)
Theorem absent_viewer_timeline (stories : list (list row)) (target : Z) :
  (forall rows r, In rows stories -> In r rows -> uid r <> target) ->
  exists ds,
    dataset_of_rows strftime stories target = Ok ds /\
    y_values ds = repeat 0%Q (length stories) /\
    latencies ds = repeat None (length stories) /\
    user_full_name ds = EmptyString /\
    user_username ds = EmptyString.
Proof.
  intros Habsent.
  destruct (dataset_of_rows_ok strftime stories target)
    as (skip & full & _ & _ & _ & Hds).
  eexists; split; [exact Hds|].
  cbn [y_values latencies user_full_name user_username].
  assert (observations skip full (creation_times_of stories)
            (user_views_of (story_views_of stories) target)
          = repeat (None, 0%Q) (length stories)) as ->.
  { apply nth_error_ext; intros idx.
    destruct (nth_error stories idx) as [rows|] eqn:E.
    - destruct (nth_error_story stories target idx rows E) as [Hc Hv].
      rewrite (nth_error_observations _ _ _ _ _ _ _ Hc Hv).
      assert (idx < length stories)%nat as Hlt
          by (apply nth_error_Some; congruence).
      rewrite nth_error_repeat by exact Hlt.
      rewrite load_story_views, user_to_time_get, first_row_of_none;
        [reflexivity|].
      intros r Hr; apply in_rev in Hr.
      apply (Habsent rows); [eapply nth_error_In; eassumption|exact Hr].
    - pose proof E as E'; apply nth_error_None in E'.
      destruct (length_story_sequences stories target) as [Lc Lu].
      rewrite (proj2 (nth_error_None _ _))
        by (rewrite length_observations; lia).
      symmetry; apply nth_error_None; rewrite repeat_length; lia. }
  rewrite !map_repeat; cbn [fst snd].
  repeat split.
  - destruct (lookup_names_absent target stories Habsent) as [-> _]; reflexivity.
  - destruct (lookup_names_absent target stories Habsent) as [_ ->]; reflexivity.
Qed.

End Timeline.

Lemma absent_viewer_timeline_witness :
  exists ds,
    dataset_of_rows (fun _ => EmptyString) tie_scenario 9 = Ok ds /\
    y_values ds = [0%Q; 0%Q; 0%Q] /\
    latencies ds = [None; None; None] /\
    user_full_name ds = EmptyString /\
    user_username ds = EmptyString.
Proof.
  apply (absent_viewer_timeline (fun _ => EmptyString) tie_scenario 9).
  intros rows r Hrows Hr.
  repeat (destruct Hrows as [<-|Hrows];
          [repeat (destruct Hr as [<-|Hr]; [discriminate|]); destruct Hr|]).
  destruct Hrows.
Defined.

(** ** What the reader keeps and when it fails *)

Section ReaderFacts.

Variable py_int : string -> option Z.
Variable fromisoformat : string -> option datetime.
Variable strftime : datetime -> string.





(** X13: when a file is read, the rows returned are exactly those given by its
    records of four or more columns whose id and date parse, with the name
    and handle taken as they are; there are no more rows than records. *)
Theorem read_story_csv_keeps (records : list (list string)) :
  forall rows,
    read_story_csv py_int fromisoformat records = Ok rows ->
    (length rows <= length records)%nat /\
    forall r,
      In r rows <->
      exists u fn un d more,
        In (u :: fn :: un :: d :: more) records /\
        py_int u = Some (uid r) /\
        fn = full_name r /\
        un = username r /\
        fromisoformat d = Some (date r).
Proof.
  induction records as [|record records IH]; cbn [read_story_csv]; intros rows H.
  - injection H as <-; split; [simpl; lia|].
    intros r; split; [intros []|intros (u & fn & un & d & more & [] & _)].
  - destruct (read_row py_int fromisoformat record) as [o|] eqn:E; [|discriminate].
    cbn [bind] in H.
    destruct (read_story_csv py_int fromisoformat records) as [rows'|];
      [|discriminate].
    cbn [bind] in H; injection H as <-.
    destruct (IH rows' eq_refl) as [Hlen Hin].
    assert (forall r,
              o = Some r <->
              exists u fn un d more,
                record = u :: fn :: un :: d :: more /\
                py_int u = Some (uid r) /\ fn = full_name r /\
                un = username r /\ fromisoformat d = Some (date r)) as Ho.
    { intros r; unfold read_row in E.
      destruct record as [|u cells].
      - injection E as <-; split; [discriminate|].
        intros (? & ? & ? & ? & ? & ? & _); discriminate.
      - destruct (py_int u) as [n|] eqn:Eu.
        + destruct cells as [|fn [|un [|d more]]]; try discriminate.
          destruct (fromisoformat d) as [t|] eqn:Ed; injection E as <-.
          * split.
            -- intros [= <-]; now exists u, fn, un, d, more.
            -- intros (u' & fn' & un' & d' & more' & Hrec & H1 & H2 & H3 & H4).
               inversion Hrec; subst u' fn' un' d' more'.
               destruct r as [ru rf rn rd]; simpl in *.
               congruence.
          * split; [discriminate|].
            intros (u' & fn' & un' & d' & more' & Hrec & _ & _ & _ & H4).
            inversion Hrec; subst u' fn' un' d' more'.
            congruence.
        + injection E as <-; split; [discriminate|].
          intros (u' & fn' & un' & d' & more' & Hrec & H1 & _).
          inversion Hrec; subst u'.
          congruence. }
    split.
    + destruct o; simpl; lia.
    + intros r; split.
      * intros Hr.
        assert (o = Some r \/ In r rows') as [Hr'|Hr']
            by (destruct o; [destruct Hr as [->|Hr]|]; auto).
        -- apply Ho in Hr' as (u & fn & un & d & more & -> & H').
           exists u, fn, un, d, more; split; [now left|exact H'].
        -- apply Hin in Hr' as (u & fn & un & d & more & Hrec & H').
           exists u, fn, un, d, more; split; [now right|exact H'].
      * intros (u & fn & un & d & more & [Hrec|Hrec] & H').
        -- assert (o = Some r) as ->
               by (apply Ho; exists u, fn, un, d, more; split; [now symmetry|exact H']).
           now left.
        -- assert (In r rows') as Hr'
               by (apply Hin; now exists u, fn, un, d, more).
           destruct o; [now right|exact Hr'].
Qed.


End ReaderFacts.

Lemma read_story_csv_keeps_witness :
  (length [mkRow 7 "U" "u" (seconds 0)] <= length sample_records)%nat /\
  forall r,
    In r [mkRow 7 "U" "u" (seconds 0)] <->
    exists u fn un d more,
      In (u :: fn :: un :: d :: more) sample_records /\
      decimal_int u = Some (uid r) /\
      fn = full_name r /\
      un = username r /\
      sample_dates d = Some (date r).
Proof.
  apply (read_story_csv_keeps decimal_int sample_dates sample_records).
  reflexivity.
Defined.

(** ** Where a landmark can be placed *)

Lemma frac_between_bounds (s e when : datetime) :
  s <= when <= e -> (0 <= frac_between s e when <= 1)%Q.
Proof.
  intros [H1 H2]; unfold frac_between.
  destruct (e =? s) eqn:E; [split; unfold Qle; simpl; lia|].
  apply Z.eqb_neq in E.
  assert (0 < inject_Z (e - s))%Q as Hpos by (unfold Qlt; simpl; lia).
  split.
  - apply Qle_shift_div_l; [exact Hpos|].
    rewrite Qmult_0_l; unfold Qle; simpl; lia.
  - apply Qle_shift_div_r; [exact Hpos|].
    rewrite Qmult_1_l; unfold Qle; simpl; lia.
Qed.

Lemma inject_nat_le (i n : nat) (k : Z) :
  Z.of_nat i + k <= Z.of_nat n ->
  (inject_Z (Z.of_nat i) + inject_Z k <= inject_Z (Z.of_nat n))%Q.
Proof.
  intros H; rewrite <- inject_Z_plus; now rewrite <- Zle_Qle.
Qed.

Lemma landmark_x_bounds (c0 : datetime) (rest : list datetime)
    (when : datetime) :
  let cts := c0 :: rest in
  let N := inject_Z (Z.of_nat (length cts)) in
  exists x,
    landmark_x cts when = Ok x /\
    (- (1 # 2) <= x <= N - (1 # 2))%Q /\
    (c0 < when < last cts c0 -> (0 <= x <= N - 1)%Q).
Proof.
  intros cts N; subst cts N.
  assert (1 <= Z.of_nat (length (c0 :: rest))) as Hlen by (simpl; lia).
  pose proof (inject_nat_le 0 (length (c0 :: rest)) 1 Hlen) as HN.
  change (inject_Z (Z.of_nat 0)) with 0%Q in HN.
  change (inject_Z 1) with 1%Q in HN.
  destruct (Z_le_gt_dec when c0) as [H0|H0].
  - exists (- (1 # 2))%Q; split; [|split].
    + unfold landmark_x; rewrite getitem_first; cbn [bind].
      now rewrite (proj2 (Z.leb_le _ _)) by lia.
    + lra.
    + lia.
  - destruct (Z_le_gt_dec (last (c0 :: rest) c0) when) as [Hl|Hl].
    + exists (right_edge (c0 :: rest)); split; [|split].
      * unfold landmark_x; rewrite getitem_first; cbn [bind].
        rewrite (proj2 (Z.leb_gt _ _)) by lia.
        rewrite getitem_last; cbn [bind].
        now rewrite (proj2 (Z.leb_le _ _)) by lia.
      * unfold right_edge; lra.
      * lia.
    + assert (c0 < when < last (c0 :: rest) c0) as H by lia.
      destruct (first_bracket_exists when rest c0)
        as (i & s & e & Hs & He & Hb & Hf); [lia|lia|].
      exists (inject_Z (Z.of_nat i) + frac_between s e when)%Q.
      assert (landmark_x (c0 :: rest) when =
              Ok (inject_Z (Z.of_nat i) + frac_between s e when)%Q) as Hx.
      { rewrite (landmark_x_inner c0 rest when H).
        rewrite (bracket_scan_first when _ _ 0 i s e); [reflexivity| |exact Hb|].
        - now rewrite nth_error_adjacent, Hs, He.
        - intros j s' e' Hj Hp Hb'.
          apply (Hf j Hj), (adjacent_brackets _ _ _ _ _ Hp Hb'). }
      pose proof (frac_between_bounds s e when Hb) as [Hf0 Hf1].
      assert (S i < length (c0 :: rest))%nat as Hi
          by (apply nth_error_Some; congruence).
      assert (Z.of_nat i + 2 <= Z.of_nat (length (c0 :: rest))) as Hi' by lia.
      pose proof (inject_nat_le i (length (c0 :: rest)) 2 Hi') as Hi2.
      change (inject_Z 2) with 2%Q in Hi2.
      assert (0 <= inject_Z (Z.of_nat i))%Q as Hi0
          by (unfold Qle; simpl; lia).
      split; [exact Hx|split; [split; lra|intros _; split; lra]].
Qed.

(** X15: with at least one story every landmark gets a position, between -0.5
    and N - 0.5; a landmark strictly between the first and the last creation
    time gets a position between 0 and N - 1. *)
Theorem landmark_x_range (c0 : datetime) (rest : list datetime)
    (when : datetime) :
  let cts := c0 :: rest in
  let N := inject_Z (Z.of_nat (length cts)) in
  exists x,
    landmark_x cts when = Ok x /\
    (- (1 # 2) <= x <= N - (1 # 2))%Q /\
    (c0 < when < last cts c0 -> (0 <= x <= N - 1)%Q).
Proof. apply landmark_x_bounds. Qed.

Lemma strictly_sorted_nth (l : list datetime) :
  StronglySorted Z.lt l ->
  forall i j a b, (i < j)%nat ->
    nth_error l i = Some a -> nth_error l j = Some b -> a < b.
Proof.
  induction 1 as [|x s Hs IH Hx]; intros i j a b Hij Hi Hj.
  - destruct i; discriminate.
  - destruct j as [|j]; [lia|].
    destruct i as [|i]; simpl in *.
    + injection Hi as <-.
      apply nth_error_In in Hj.
      rewrite Forall_forall in Hx; now apply Hx.
    + eapply IH; [|eassumption|eassumption]; lia.
Qed.

(** X16: when the creation times increase strictly, a landmark after story j
    and not after story j + 1, and before the last story, is placed by
    linear interpolation between the two, at j + (when - start) / (end -
    start); a landmark at the creation time of story j + 1 is at j + 1. *)
Theorem landmark_interpolates (c0 : datetime) (rest : list datetime)
    (when : datetime) (j : nat) (s e : datetime) :
  StronglySorted Z.lt (c0 :: rest) ->
  nth_error (c0 :: rest) j = Some s ->
  nth_error (c0 :: rest) (S j) = Some e ->
  s < when <= e ->
  when < last (c0 :: rest) c0 ->
  landmark_x (c0 :: rest) when =
    Ok (inject_Z (Z.of_nat j) + inject_Z (when - s) / inject_Z (e - s))%Q /\
  (when = e ->
   (inject_Z (Z.of_nat j) + inject_Z (when - s) / inject_Z (e - s)
    == inject_Z (Z.of_nat (S j)))%Q).
Proof.
  intros Hsorted Hs He [Hlo Hhi] Hlast.
  assert (c0 <= s) as H0.
  { destruct j as [|j]; [injection Hs as <-; lia|].
    apply Z.lt_le_incl.
    apply (strictly_sorted_nth _ Hsorted 0 (S j) c0 s); [lia|reflexivity|exact Hs]. }
  split.
  - rewrite (landmark_x_inner c0 rest when) by lia.
    rewrite (bracket_scan_first when _ _ 0 j s e).
    + unfold frac_between.
      now rewrite (proj2 (Z.eqb_neq e s)) by lia.
    + now rewrite nth_error_adjacent, Hs, He.
    + lia.
    + intros k s' e' Hk Hp [_ Hb'].
      rewrite nth_error_adjacent in Hp.
      destruct (nth_error (c0 :: rest) k) as [x|] eqn:Ex; [|discriminate].
      destruct (nth_error (c0 :: rest) (S k)) as [y|] eqn:Ey; [|discriminate].
      injection Hp as -> ->.
      assert (e' <= s) as Hle.
      { destruct (Nat.eq_dec (S k) j) as [Ej|Ej].
        - subst j; rewrite Ey in Hs; injection Hs as <-; lia.
        - apply Z.lt_le_incl.
          apply (strictly_sorted_nth _ Hsorted (S k) j e' s);
            [lia|exact Ey|exact Hs]. }
      lia.
  - intros ->.
    assert (0 < inject_Z (e - s))%Q as Hpos by (unfold Qlt; simpl; lia).
    rewrite Nat2Z.inj_succ; unfold Z.succ; rewrite inject_Z_plus.
    apply Qplus_inj_l.
    change (inject_Z 1) with 1%Q; unfold Qdiv; apply Qmult_inv_r.
    intros Hz; rewrite Hz in Hpos; revert Hpos; apply Qlt_irrefl.
Qed.

Lemma landmark_interpolates_witness :
  landmark_x [seconds 0; seconds 100; seconds 500] (seconds 100) =
    Ok (inject_Z (Z.of_nat 0)
        + inject_Z (seconds 100 - seconds 0)
          / inject_Z (seconds 100 - seconds 0))%Q /\
  (seconds 100 = seconds 100 ->
   (inject_Z (Z.of_nat 0)
    + inject_Z (seconds 100 - seconds 0) / inject_Z (seconds 100 - seconds 0)
    == inject_Z (Z.of_nat 1))%Q).
Proof.
  apply (landmark_interpolates (seconds 0) [seconds 100; seconds 500]
           (seconds 100) 0 (seconds 0) (seconds 100)).
  - repeat constructor.
  - reflexivity.
  - reflexivity.
  - unfold seconds; lia.
  - unfold seconds; simpl; lia.
Defined.

(** ** Colours, labels and the limits of the axis *)

Lemma ratio_bounds (a b : Z) :
  0 <= a <= b -> 0 < b -> (0 <= inject_Z a / inject_Z b <= 1)%Q.
Proof.
  intros [H1 H2] Hb.
  assert (0 < inject_Z b)%Q as Hpos by (unfold Qlt; simpl; lia).
  split.
  - apply Qle_shift_div_l; [exact Hpos|].
    rewrite Qmult_0_l; unfold Qle; simpl; lia.
  - apply Qle_shift_div_r; [exact Hpos|].
    rewrite Qmult_1_l; unfold Qle; simpl; lia.
Qed.

Lemma max_of_ge (vs : list Z) (v : Z) :
  v <= max_of v vs /\ forall x, In x vs -> x <= max_of v vs.
Proof.
  unfold max_of; revert v; induction vs as [|w vs IH]; intros v; simpl.
  - split; [lia|contradiction].
  - destruct (IH (Z.max v w)) as [H1 H2]; split; [lia|].
    intros x [<-|Hx]; [lia|auto].
Qed.

Lemma valid_latencies_in (latencies : list (option Z)) (lat : Z) :
  In lat (valid_latencies latencies) <-> In (Some lat) latencies.
Proof.
  unfold valid_latencies; rewrite in_flat_map; split.
  - intros ([l|] & Hin & Hl); [|contradiction].
    destruct Hl as [<-|[]]; exact Hin.
  - intros H; exists (Some lat); split; [exact H|now left].
Qed.

(** X19: the range the latencies are divided by is at least 1, so the colour
    of a line is always defined; every latency of the list lies between the
    minimum and the maximum used, and its normalised value between 0 and
    1. *)
Theorem line_color_normalised (latencies : list (option Z)) :
  let min_lat := fst (fst (latency_scale latencies)) in
  let max_lat := snd (fst (latency_scale latencies)) in
  let lat_range := snd (latency_scale latencies) in
  1 <= lat_range /\
  line_color min_lat lat_range None = inl Grey /\
  forall lat,
    In (Some lat) latencies ->
    min_lat <= lat <= max_lat /\
    exists norm,
      line_color min_lat lat_range (Some lat) = inl (Cmap norm) /\
      (0 <= norm <= 1)%Q.
Proof.
  intros min_lat max_lat lat_range; subst min_lat max_lat lat_range.
  unfold latency_scale.
  destruct (valid_latencies latencies) as [|v vs] eqn:E; cbn [fst snd].
  - split; [lia|split; [reflexivity|]].
    intros lat Hin; apply valid_latencies_in in Hin.
    rewrite E in Hin; destruct Hin.
  - destruct (min_of_le vs v) as [Hmin0 Hmin].
    destruct (max_of_ge vs v) as [Hmax0 Hmax].
    assert (min_of v vs <= max_of v vs) as Hmm by lia.
    assert (1 <= (if negb (max_of v vs =? min_of v vs)
                  then max_of v vs - min_of v vs else 1)) as Hrange.
    { destruct (max_of v vs =? min_of v vs) eqn:Eq; cbn [negb]; [lia|].
      apply Z.eqb_neq in Eq; lia. }
    split; [exact Hrange|split; [reflexivity|]].
    intros lat Hin; apply valid_latencies_in in Hin; rewrite E in Hin.
    assert (min_of v vs <= lat <= max_of v vs) as Hlat.
    { destruct Hin as [<-|Hin]; [lia|].
      split; [now apply Hmin|now apply Hmax]. }
    split; [exact Hlat|].
    unfold line_color.
    rewrite (proj2 (Z.eqb_neq _ 0)) by lia.
    eexists; split; [reflexivity|].
    apply ratio_bounds; [|lia].
    destruct (max_of v vs =? min_of v vs) eqn:Eq; cbn [negb].
    + apply Z.eqb_eq in Eq; lia.
    + lia.
Qed.

(** X20: the text of a label splits the latency without losing more than the
    unit it leaves out: seconds below a minute; whole minutes and seconds,
    adding up to the latency, below an hour; and from an hour on the hours
    and the minutes of the latency rounded down to the minute. *)
Theorem latency_annotation_parts (lat : Z) :
  match latency_annotation lat with
  | AfterSeconds secs => lat < 60 /\ secs = lat
  | AfterMinutes mins secs =>
      60 <= lat < 3600 /\ 1 <= mins <= 59 /\ 0 <= secs <= 59 /\
      lat = 60 * mins + secs
  | AfterHours hours mins =>
      3600 <= lat /\ 1 <= hours /\ 0 <= mins <= 59 /\
      3600 * hours + 60 * mins <= lat < 3600 * hours + 60 * mins + 60
  end.
Proof.
  unfold latency_annotation.
  destruct (lat <? 60) eqn:E1; [apply Z.ltb_lt in E1; auto|].
  apply Z.ltb_ge in E1.
  destruct (lat <? 3600) eqn:E2.
  - apply Z.ltb_lt in E2.
    pose proof (Z.div_mod lat 60 ltac:(lia)) as Hdm.
    pose proof (Z.mod_pos_bound lat 60 ltac:(lia)) as Hm.
    assert (1 <= lat / 60 <= 59).
    { split; [apply Z.div_le_lower_bound; lia|].
      apply Z.lt_succ_r, Z.div_lt_upper_bound; lia. }
    repeat split; lia.
  - apply Z.ltb_ge in E2.
    pose proof (Z.div_mod lat 3600 ltac:(lia)) as Hdm.
    pose proof (Z.mod_pos_bound lat 3600 ltac:(lia)) as Hm.
    pose proof (Z.div_mod (lat mod 3600) 60 ltac:(lia)) as Hdm'.
    pose proof (Z.mod_pos_bound (lat mod 3600) 60 ltac:(lia)) as Hm'.
    assert (1 <= lat / 3600) by (apply Z.div_le_lower_bound; lia).
    assert (0 <= lat mod 3600 / 60 <= 59).
    { split; [apply Z.div_pos; lia|].
      apply Z.lt_succ_r, Z.div_lt_upper_bound; lia. }
    repeat split; lia.
Qed.

Section Labels.

Variable strftime : datetime -> string.

(** X21: in a dataset built from the rows, a story the target viewed always
    gets a label, placed at its engagement value plus 0.05 (the cap of 1.15
    is never reached), for a latency that is not negative; a story not
    viewed gets none. *)
Theorem labels_follow_views (stories : list (list row)) (target : Z) :
  exists ds,
    dataset_of_rows strftime stories target = Ok ds /\
    forall idx y lat,
      nth_error (y_values ds) idx = Some y ->
      nth_error (latencies ds) idx = Some lat ->
      match lat with
      | Some l =>
          0 <= l /\
          line_label y lat = Some ((y + (1 # 20))%Q, latency_annotation l)
      | None => line_label y lat = None
      end.
Proof.
  destruct (dataset_of_rows_nth strftime stories target)
    as (skip & full & ds & _ & _ & _ & Hds & _ & _ & Ly & _ & Hnth).
  exists ds; split; [exact Hds|].
  intros idx y lat Hy Hlat.
  destruct (nth_error stories idx) as [rows|] eqn:E.
  - destruct (Hnth idx rows E) as [Hl' Hy'].
    rewrite Hy in Hy'; rewrite Hlat in Hl'.
    injection Hy' as ->; injection Hl' as ->.
    unfold observe.
    destruct (dict_get (fst (load_story rows)) target) as [vt|] eqn:Hvt;
      cbn [fst snd]; [|reflexivity].
    split.
    + apply seconds_between_nonneg, (load_story_creation_le rows target vt Hvt).
    + destruct (classify_values skip full
                  (next_gap (user_views_of (story_views_of stories) target) idx vt))
        as [-> | [-> | ->]]; reflexivity.
  - apply nth_error_None in E.
    assert (idx < length (y_values ds))%nat by (apply nth_error_Some; congruence).
    lia.
Qed.

End Labels.

Lemma qmin_le (a b : Q) : (qmin a b <= a /\ qmin a b <= b)%Q.
Proof.
  unfold qmin, Qlt_bool.
  destruct (Qle_bool a b) eqn:E; cbn [negb].
  - apply Qle_bool_iff in E; split; [apply Qle_refl|exact E].
  - assert (~ (a <= b)%Q) as Hn by (rewrite <- Qle_bool_iff; congruence).
    apply Qnot_le_lt in Hn; split; [now apply Qlt_le_weak|apply Qle_refl].
Qed.

Lemma qmax_ge (a b : Q) : (a <= qmax a b /\ b <= qmax a b)%Q.
Proof.
  unfold qmax, Qlt_bool.
  destruct (Qle_bool b a) eqn:E; cbn [negb].
  - apply Qle_bool_iff in E; split; [apply Qle_refl|exact E].
  - assert (~ (b <= a)%Q) as Hn by (rewrite <- Qle_bool_iff; congruence).
    apply Qnot_le_lt in Hn; split; [now apply Qlt_le_weak|apply Qle_refl].
Qed.

Lemma qmin_of_le (ps : list Q) (p : Q) :
  (qmin_of p ps <= p)%Q /\ forall x, In x ps -> (qmin_of p ps <= x)%Q.
Proof.
  unfold qmin_of; revert p; induction ps as [|q ps IH]; intros p; simpl.
  - split; [apply Qle_refl|contradiction].
  - destruct (IH (qmin p q)) as [H1 H2].
    destruct (qmin_le p q) as [Hp Hq].
    split; [eapply Qle_trans; eassumption|].
    intros x [<-|Hx]; [eapply Qle_trans; eassumption|auto].
Qed.

Lemma qmax_of_ge (ps : list Q) (p : Q) :
  (p <= qmax_of p ps)%Q /\ forall x, In x ps -> (x <= qmax_of p ps)%Q.
Proof.
  unfold qmax_of; revert p; induction ps as [|q ps IH]; intros p; simpl.
  - split; [apply Qle_refl|contradiction].
  - destruct (IH (qmax p q)) as [H1 H2].
    destruct (qmax_ge p q) as [Hp Hq].
    split; [eapply Qle_trans; eassumption|].
    intros x [<-|Hx]; [eapply Qle_trans; eassumption|auto].
Qed.

(** [int(x)] is less than one away from [x]. *)
Lemma int_of_float_near (x : Q) :
  (inject_Z (int_of_float x) - 1 < x /\ x < inject_Z (int_of_float x) + 1)%Q.
Proof.
  destruct x as [n d]; unfold int_of_float; cbn [Qnum Qden].
  pose proof (Z.quot_rem' n (Zpos d)) as Hq.
  pose proof (Z.rem_bound_abs n (Zpos d) ltac:(lia)) as Hr.
  set (q := Z.quot n (Zpos d)) in *.
  set (r := Z.rem n (Zpos d)) in *.
  unfold Qlt, Qminus, Qplus, Qopp, inject_Z; cbn [Qnum Qden].
  rewrite !Pos.mul_1_l, !Z.mul_1_r.
  clearbody q r; split; lia.
Qed.

(** X18: with the limits given to the axis, every landmark position and every
    story index lies strictly inside them. *)
Theorem x_limits_contain (n_labels : nat) (positions : list Q) :
  let lo := fst (x_limits n_labels positions) in
  let hi := snd (x_limits n_labels positions) in
  (forall p, In p positions -> (lo < p < hi)%Q) /\
  (forall idx, (idx < n_labels)%nat ->
               (lo < inject_Z (Z.of_nat idx) < hi)%Q).
Proof.
  intros lo hi; subst lo hi; unfold x_limits; cbv zeta.
  destruct positions as [|p ps]; cbn [fst snd].
  - split; [intros p []|].
    intros idx Hidx.
    assert (0 <= inject_Z (Z.of_nat idx))%Q by (unfold Qle; simpl; lia).
    assert (inject_Z (Z.of_nat idx) <= inject_Z (Z.of_nat n_labels - 1))%Q
      by (rewrite <- Zle_Qle; lia).
    change (inject_Z 0) with 0%Q; split; lra.
  - set (lo_z := Z.min 0 (int_of_float (qmin_of p ps - 1))).
    set (hi_z := Z.max (Z.of_nat n_labels - 1) (int_of_float (qmax_of p ps + 1))).
    assert (inject_Z lo_z <= 0)%Q as Hlo0
        by (change 0%Q with (inject_Z 0); rewrite <- Zle_Qle; subst lo_z; lia).
    assert (inject_Z lo_z <= inject_Z (int_of_float (qmin_of p ps - 1)))%Q as Hlo1
        by (rewrite <- Zle_Qle; subst lo_z; lia).
    assert (inject_Z (Z.of_nat n_labels - 1) <= inject_Z hi_z)%Q as Hhi0
        by (rewrite <- Zle_Qle; subst hi_z; lia).
    assert (inject_Z (int_of_float (qmax_of p ps + 1)) <= inject_Z hi_z)%Q as Hhi1
        by (rewrite <- Zle_Qle; subst hi_z; lia).
    destruct (int_of_float_near (qmin_of p ps - 1)) as [Hmin _].
    destruct (int_of_float_near (qmax_of p ps + 1)) as [_ Hmax].
    destruct (qmin_of_le ps p) as [Hminp Hminps].
    destruct (qmax_of_ge ps p) as [Hmaxp Hmaxps].
    split.
    + intros x Hx.
      assert (qmin_of p ps <= x /\ x <= qmax_of p ps)%Q as [Hx1 Hx2].
      { destruct Hx as [<-|Hx]; [now split|split; auto]. }
      split; lra.
    + intros idx Hidx.
      assert (0 <= inject_Z (Z.of_nat idx))%Q by (unfold Qle; simpl; lia).
      assert (inject_Z (Z.of_nat idx) <= inject_Z (Z.of_nat n_labels - 1))%Q
        by (rewrite <- Zle_Qle; lia).
      split; lra.
Qed.

Lemma qmin_of_in (ps : list Q) (p : Q) : In (qmin_of p ps) (p :: ps).
Proof.
  unfold qmin_of; revert p; induction ps as [|q ps IH]; intros p; simpl.
  - now left.
  - destruct (IH (qmin p q)) as [H|H]; [|auto].
    rewrite <- H; unfold qmin; destruct (Qlt_bool q p); auto.
Qed.

Lemma qmax_of_in (ps : list Q) (p : Q) : In (qmax_of p ps) (p :: ps).
Proof.
  unfold qmax_of; revert p; induction ps as [|q ps IH]; intros p; simpl.
  - now left.
  - destruct (IH (qmax p q)) as [H|H]; [|auto].
    rewrite <- H; unfold qmax; destruct (Qlt_bool p q); auto.
Qed.

(** [int(x)] lies between 0 and [x]. *)
Lemma int_of_float_toward_zero (x : Q) :
  ((0 <= x -> 0 <= inject_Z (int_of_float x) <= x) /\
   (x <= 0 -> x <= inject_Z (int_of_float x) <= 0))%Q.
Proof.
  destruct x as [n d]; unfold int_of_float; cbn [Qnum Qden].
  pose proof (Z.quot_rem' n (Zpos d)) as Hq.
  unfold Qle, inject_Z; cbn [Qnum Qden].
  rewrite !Z.mul_1_r, ?Pos.mul_1_l; cbn [Z.mul].
  split; intros Hn.
  - pose proof (Z.rem_nonneg n (Zpos d) ltac:(lia) Hn) as Hr.
    pose proof (Z.quot_pos n (Zpos d) Hn ltac:(lia)) as Hp.
    split; [lia|].
    set (q := Z.quot n (Zpos d)) in *; set (r := Z.rem n (Zpos d)) in *.
    clearbody q r; lia.
  - pose proof (Z.rem_nonpos n (Zpos d) ltac:(lia) Hn) as Hr.
    assert (Z.quot n (Zpos d) <= 0) as Hp.
    { rewrite <- (Z.opp_involutive n), Z.quot_opp_l by lia.
      pose proof (Z.quot_pos (- n) (Zpos d) ltac:(lia) ltac:(lia)); lia. }
    split; [|lia].
    set (q := Z.quot n (Zpos d)) in *; set (r := Z.rem n (Zpos d)) in *.
    clearbody q r; lia.
Qed.

Lemma inject_Z_le_half (a b : Z) :
  (inject_Z a <= inject_Z b + (1 # 2))%Q -> a <= b.
Proof. unfold Qle, Qplus, inject_Z; simpl; lia. Qed.

(** X17: with at least one story all landmarks are placed, each between -0.5
    and N - 0.5, and the limits of the axis then stay between -1.5 and
    N + 0.5. *)
Theorem landmarks_on_axis (c0 : datetime) (rest : list datetime)
    (landmarks : list (datetime * string)) :
  let cts := c0 :: rest in
  let N := inject_Z (Z.of_nat (length cts)) in
  exists positions,
    landmark_x_positions cts landmarks = Ok positions /\
    length positions = length landmarks /\
    (forall p, In p positions -> (- (1 # 2) <= p <= N - (1 # 2))%Q) /\
    (- (3 # 2) <= fst (x_limits (length cts) positions))%Q /\
    (snd (x_limits (length cts) positions) <= N + (1 # 2))%Q.
Proof.
  intros cts N; subst cts N.
  set (cts := c0 :: rest).
  assert (exists positions,
            landmark_x_positions cts landmarks = Ok positions /\
            length positions = length landmarks /\
            forall p, In p positions ->
              (- (1 # 2) <= p <= inject_Z (Z.of_nat (length cts)) - (1 # 2))%Q)
    as (positions & Hok & Hlen & Hin).
  { unfold landmark_x_positions.
    induction landmarks as [|[when label] landmarks IH]; cbn [mapM].
    - exists []; split; [reflexivity|split; [reflexivity|intros q []]].
    - destruct (landmark_x_bounds c0 rest when) as (x & Hx & Hb & _).
      destruct IH as (ps & Hps & Hl & Hp).
      fold cts in Hx; rewrite Hx; cbn [bind]; rewrite Hps; cbn [bind].
      exists (x :: ps); split; [reflexivity|split; [simpl; lia|]].
      intros q [<-|Hq]; [exact Hb|now apply Hp]. }
  exists positions; repeat (split; [assumption|]).
  assert (1 <= Z.of_nat (length cts)) as HN1 by (subst cts; simpl; lia).
  unfold x_limits; cbv zeta.
  destruct positions as [|p ps]; cbn [fst snd].
  - assert (inject_Z (Z.of_nat (length cts) - 1)
            <= inject_Z (Z.of_nat (length cts)))%Q by (rewrite <- Zle_Qle; lia).
    change (inject_Z 0) with 0%Q; split; lra.
  - assert (- (1 # 2) <= qmin_of p ps)%Q as Hmin
        by (apply Hin, qmin_of_in).
    assert (qmax_of p ps <= inject_Z (Z.of_nat (length cts)) - (1 # 2))%Q as Hmax
        by (apply Hin, qmax_of_in).
    assert (- (1 # 2) <= qmax_of p ps)%Q as Hmax0 by (apply Hin, qmax_of_in).
    destruct (int_of_float_toward_zero (qmin_of p ps - 1)) as [Hpos Hneg].
    destruct (int_of_float_toward_zero (qmax_of p ps + 1)) as [Hpos' _].
    split.
    + assert (-1 <= int_of_float (qmin_of p ps - 1)) as Hz.
      { destruct (Qlt_le_dec (qmin_of p ps - 1) 0) as [Hlt|Hge].
        - destruct (Hneg (Qlt_le_weak _ _ Hlt)) as [H1 _].
          assert (- (3 # 2) <= inject_Z (int_of_float (qmin_of p ps - 1)))%Q
            as H2 by lra.
          unfold Qle in H2; simpl in H2; lia.
        - destruct (Hpos Hge) as [H1 _].
          unfold Qle in H1; simpl in H1; lia. }
      assert (inject_Z (-1) <=
              inject_Z (Z.min 0 (int_of_float (qmin_of p ps - 1))))%Q as H
          by (rewrite <- Zle_Qle; lia).
      change (inject_Z (-1)) with (- (1))%Q in H; lra.
    + assert (int_of_float (qmax_of p ps + 1) <= Z.of_nat (length cts)) as Hz.
      { destruct Hpos' as [_ H1]; [lra|].
        apply inject_Z_le_half; lra. }
      assert (inject_Z (Z.max (Z.of_nat (length cts) - 1)
                          (int_of_float (qmax_of p ps + 1)))
              <= inject_Z (Z.of_nat (length cts)))%Q as H
          by (rewrite <- Zle_Qle; lia).
      lra.
Qed.

(** ** The order of the files *)

Section FileOrder.

Variable py_int : string -> option Z.

Lemma insert_stem_perm (stem : string) (sorted l : list string) :
  insert_stem py_int stem sorted = Ok l -> Permutation (stem :: sorted) l.
Proof.
  revert l; induction sorted as [|s sorted IH]; intros l; cbn [insert_stem].
  - intros [= <-]; apply Permutation_refl.
  - destruct (key_lt (numeric_key py_int s) (numeric_key py_int stem))
      as [[|]|]; cbn [bind]; [| |discriminate].
    + destruct (insert_stem py_int stem sorted) as [rest|]; cbn [bind];
        [|discriminate].
      intros [= <-].
      eapply Permutation_trans; [apply perm_swap|].
      apply perm_skip, IH; reflexivity.
    + intros [= <-]; apply Permutation_refl.
Qed.

Lemma sorted_stems_perm (stems l : list string) :
  sorted_stems py_int stems = Ok l -> Permutation stems l.
Proof.
  revert l; induction stems as [|stem stems IH]; intros l; cbn [sorted_stems].
  - intros [= <-]; constructor.
  - destruct (sorted_stems py_int stems) as [sorted|]; cbn [bind];
      [|discriminate].
    intros H; apply insert_stem_perm in H.
    eapply Permutation_trans; [apply perm_skip, IH; reflexivity|exact H].
Qed.

Lemma key_lt_raises (a b : sort_key) (e : exn) :
  key_lt a b = Raise e -> e = TypeError.
Proof. destruct a, b; simpl; congruence. Qed.

Lemma insert_stem_raises (stem : string) (sorted : list string) (e : exn) :
  insert_stem py_int stem sorted = Raise e -> e = TypeError.
Proof.
  induction sorted as [|s sorted IH]; cbn [insert_stem]; [discriminate|].
  destruct (key_lt (numeric_key py_int s) (numeric_key py_int stem))
    as [[|]|e'] eqn:E; cbn [bind].
  - destruct (insert_stem py_int stem sorted); cbn [bind]; [discriminate|].
    intros [= <-]; now apply IH.
  - discriminate.
  - intros [= <-]; eapply key_lt_raises; eassumption.
Qed.

Lemma sorted_stems_raises (stems : list string) (e : exn) :
  sorted_stems py_int stems = Raise e -> e = TypeError.
Proof.
  induction stems as [|stem stems IH]; cbn [sorted_stems]; [discriminate|].
  destruct (sorted_stems py_int stems) as [sorted|e']; cbn [bind].
  - apply insert_stem_raises.
  - intros [= <-]; now apply IH.
Qed.

(** A list that was sorted holds stems of one kind only. *)
Lemma sorted_stems_one_kind (stems l : list string) :
  sorted_stems py_int stems = Ok l ->
  forall a b, In a stems -> In b stems ->
    (py_int a = None <-> py_int b = None).
Proof.
  revert l; induction stems as [|stem stems IH]; intros l; cbn [sorted_stems];
    [intros _ a b []|].
  destruct (sorted_stems py_int stems) as [sorted|] eqn:Es; cbn [bind];
    [|discriminate].
  intros Hins.
  assert (forall b, In b stems -> (py_int stem = None <-> py_int b = None))
    as Hstem.
  { intros b Hb.
    destruct sorted as [|s sorted].
    - apply sorted_stems_perm in Es.
      apply Permutation_sym, Permutation_nil in Es; subst stems; destruct Hb.
    - assert (In s stems) as Hs
          by (eapply Permutation_in;
              [apply Permutation_sym, sorted_stems_perm; exact Es|now left]).
      rewrite <- (IH _ eq_refl s b Hs Hb).
      cbn [insert_stem] in Hins; unfold numeric_key, key_lt in Hins.
      destruct (py_int s), (py_int stem); try discriminate; split; congruence. }
  intros a b [<-|Ha] [<-|Hb].
  - reflexivity.
  - now apply Hstem.
  - symmetry; now apply Hstem.
  - now apply (IH _ eq_refl).
Qed.

Lemma insert_stem_sorted (stem : string) (sorted : list string) :
  py_int stem <> None ->
  (forall s, In s sorted -> py_int s <> None) ->
  StronglySorted (int_key_le py_int) sorted ->
  exists l,
    insert_stem py_int stem sorted = Ok l /\ StronglySorted (int_key_le py_int) l.
Proof.
  intros Hstem Hall Hsorted.
  induction Hsorted as [|s sorted Hs IH Hfa]; cbn [insert_stem].
  - eexists; split; [reflexivity|repeat constructor].
  - unfold numeric_key, key_lt.
    destruct (py_int stem) as [n|] eqn:En; [|congruence].
    destruct (py_int s) as [m|] eqn:Em; [|exfalso; apply (Hall s); auto; now left].
    cbn [bind].
    destruct (m <? n) eqn:E.
    + destruct IH as (l & Hl & Hsl); [intros; apply Hall; now right|].
      rewrite Hl; cbn [bind]; eexists; split; [reflexivity|].
      constructor; [exact Hsl|].
      apply Forall_forall; intros x Hx.
      eapply Permutation_in in Hx;
        [|apply Permutation_sym, insert_stem_perm; exact Hl].
      destruct Hx as [<-|Hx].
      * unfold int_key_le; rewrite Em, En; apply Z.ltb_lt in E; lia.
      * rewrite Forall_forall in Hfa; now apply Hfa.
    + eexists; split; [reflexivity|].
      apply Z.ltb_ge in E.
      constructor; [constructor; assumption|].
      constructor.
      * unfold int_key_le; now rewrite En, Em.
      * apply Forall_forall; intros x Hx.
        rewrite Forall_forall in Hfa; specialize (Hfa x Hx).
        unfold int_key_le in *; rewrite Em in Hfa; rewrite En.
        destruct (py_int x); [lia|exact Hfa].
Qed.

(** X22: when every stem is a number the files are ordered by that number, and
    none is lost; when some stems are numbers and some are not, ordering the
    files raises [TypeError]. *)
Theorem sorted_stems_by_number (stems : list string) :
  ((forall s, In s stems -> py_int s <> None) ->
   exists l,
     sorted_stems py_int stems = Ok l /\
     Permutation stems l /\
     StronglySorted (int_key_le py_int) l) /\
  (forall a b,
     In a stems -> In b stems -> py_int a <> None -> py_int b = None ->
     sorted_stems py_int stems = Raise TypeError).
Proof.
  split.
  - induction stems as [|stem stems IH]; intros Hall; cbn [sorted_stems].
    + exists []; repeat split; constructor.
    + destruct IH as (sorted & Hs & Hp & Hss); [intros; apply Hall; now right|].
      rewrite Hs; cbn [bind].
      destruct (insert_stem_sorted stem sorted) as (l & Hl & Hsl);
        [apply Hall; now left| |exact Hss|].
      * intros s Hin; apply Hall; right.
        eapply Permutation_in; [apply Permutation_sym; exact Hp|exact Hin].
      * exists l; split; [exact Hl|split; [|exact Hsl]].
        eapply Permutation_trans; [apply perm_skip; exact Hp|].
        now apply insert_stem_perm.
  - intros a b Ha Hb Hna Hnb.
    destruct (sorted_stems py_int stems) as [l|e] eqn:E.
    + exfalso; apply Hna.
      now apply (sorted_stems_one_kind stems l E a b Ha Hb).
    + now rewrite (sorted_stems_raises stems e E).
Qed.

End FileOrder.

(** ** Landmark arguments *)

Lemma split_bar_some (spec date_str label : string) :
  split_bar spec = Some (date_str, label) <->
  spec = (date_str ++ "|" ++ label)%string /\ ~ In "|"%char (chars date_str).
Proof.
  unfold chars; revert date_str label.
  induction spec as [|c spec IH]; intros date_str label; cbn [split_bar].
  - split; [discriminate|].
    intros [H _]; destruct date_str; discriminate.
  - destruct (Ascii.eqb c "|") eqn:E.
    + apply Ascii.eqb_eq in E; subst c; split.
      * intros [= <- <-]; split; [reflexivity|intros []].
      * intros [H Hno]; destruct date_str as [|c' date_str].
        -- simpl in H; now injection H as ->.
        -- simpl in H; injection H as <- _.
           exfalso; apply Hno; now left.
    + apply Ascii.eqb_neq in E; split.
      * destruct (split_bar spec) as [[a b]|] eqn:Es; [|discriminate].
        intros [= <- <-].
        destruct (proj1 (IH a b) eq_refl) as [-> Hno].
        split; [reflexivity|].
        intros [H|H]; [congruence|contradiction].
      * intros [H Hno]; destruct date_str as [|c' date_str].
        -- simpl in H; injection H as -> _; congruence.
        -- simpl in H; injection H as <- ->.
           rewrite (proj2 (IH date_str label)); [reflexivity|].
           split; [reflexivity|].
           intros Hin; apply Hno; now right.
Qed.

(** X23: a landmark argument is cut at its first bar: the text before it has
    no bar, the label keeps any further bars, and an argument without a bar
    is not split. *)
Theorem split_bar_first (spec : string) :
  (forall date_str label,
     split_bar spec = Some (date_str, label) <->
     spec = (date_str ++ "|" ++ label)%string /\
     ~ In "|"%char (chars date_str)) /\
  (split_bar spec = None <-> ~ In "|"%char (chars spec)).
Proof.
  split; [intros; apply split_bar_some|].
  unfold chars; induction spec as [|c spec IH]; cbn [split_bar].
  - split; [intros _ []|reflexivity].
  - destruct (Ascii.eqb c "|") eqn:E.
    + apply Ascii.eqb_eq in E; subst c; split; [discriminate|].
      intros H; exfalso; apply H; now left.
    + apply Ascii.eqb_neq in E.
      destruct (split_bar spec) as [[a b]|]; split.
      * discriminate.
      * intros H; exfalso.
        assert (Some (a, b) = None) by (apply IH; intros Hin; apply H; now right).
        discriminate.
      * intros _ [H|H]; [congruence|now apply (proj1 IH eq_refl)].
      * reflexivity.
Qed.

Section Marks.

Variable strip : string -> string.
Variable fromisoformat_any : string -> option parsed_datetime.

Lemma parse_mark_cases (spec : string) :
  (bad_mark strip fromisoformat_any spec /\
   parse_mark strip fromisoformat_any spec = Raise SystemExit) \/
  (exists landmark,
     mark_of strip fromisoformat_any spec landmark /\
     parse_mark strip fromisoformat_any spec = Ok landmark).
Proof.
  unfold bad_mark, mark_of, parse_mark.
  destruct (split_bar spec) as [[date_str label]|] eqn:E; [|now left].
  destruct (fromisoformat_any (strip date_str)) as [d|] eqn:Ed; [|now left].
  right; eexists; split; [|reflexivity].
  apply split_bar_some in E as [-> Hno].
  now exists date_str, label, d.
Qed.

Lemma bad_mark_not_ok (spec : string) (landmark : datetime * string) :
  bad_mark strip fromisoformat_any spec ->
  parse_mark strip fromisoformat_any spec <> Ok landmark.
Proof.
  unfold bad_mark, parse_mark.
  destruct (split_bar spec) as [[date_str label]|]; [|discriminate].
  intros ->; discriminate.
Qed.

Lemma mapM_parse_mark (specs : list string) :
  (exists spec,
     In spec specs /\ bad_mark strip fromisoformat_any spec /\
     mapM (parse_mark strip fromisoformat_any) specs = Raise SystemExit) \/
  (exists landmarks,
     Forall2 (mark_of strip fromisoformat_any) specs landmarks /\
     mapM (parse_mark strip fromisoformat_any) specs = Ok landmarks).
Proof.
  induction specs as [|spec specs IH]; cbn [mapM].
  - right; exists []; split; [constructor|reflexivity].
  - destruct (parse_mark_cases spec) as [[Hbad ->]|(lm & Hlm & ->)]; cbn [bind].
    + left; exists spec; repeat split; [now left|exact Hbad].
    + destruct IH as [(bad & Hin & Hbad & ->)|(lms & Hlms & ->)]; cbn [bind].
      * left; exists bad; repeat split; [now right|exact Hbad].
      * right; exists (lm :: lms); split; [now constructor|reflexivity].
Qed.

(** X24: the landmark arguments are accepted together or not at all: when each
    has a bar and a date before it, the landmarks are, in order, the time of
    that date, a naive one taken as UTC, and the stripped text after the
    first bar; when one has no bar or no date, the program stops with
    [SystemExit]. *)
Theorem parse_marks_all_or_nothing (specs : list string) :
  (exists spec,
     In spec specs /\ bad_mark strip fromisoformat_any spec /\
     parse_marks strip fromisoformat_any (Some specs) = Raise SystemExit) \/
  (exists landmarks,
     Forall2 (mark_of strip fromisoformat_any) specs landmarks /\
     parse_marks strip fromisoformat_any (Some specs) = Ok landmarks).
Proof.
  destruct specs as [|spec specs].
  - right; exists []; split; [constructor|reflexivity].
  - apply (mapM_parse_mark (spec :: specs)).
Qed.

End Marks.

(** ** Names as [main.py] writes them *)

Lemma story_hits_in (target : Z) (stories : list (list row)) (r : row) :
  In r (story_hits target stories) ->
  exists rows, In rows stories /\ In r rows /\ uid r = target.
Proof.
  unfold story_hits; rewrite in_flat_map.
  intros (rows & Hrows & Hr).
  destruct (first_row_of target rows) as [r'|] eqn:E; [|contradiction].
  destruct Hr as [<-|[]].
  apply first_row_of_some in E as [Hin Hu].
  now exists rows.
Qed.

(** X25: the full name [main.py] writes is never empty, and when no row has an
    empty full name the names of the target are those of the target's first
    occurrence in the stories, or empty when there is none. *)
Theorem written_names_first_occurrence (target : Z)
    (stories : list (list row)) :
  (forall first_name last_name,
     written_full_name first_name last_name <> EmptyString) /\
  ((forall rows r, In rows stories -> In r rows -> full_name r <> EmptyString) ->
   lookup_names target stories =
   match first_occurrence target stories with
   | Some r => names_of r
   | None => (EmptyString, EmptyString)
   end).
Proof.
  split.
  - intros f l; unfold written_full_name.
    destruct (or_empty f); discriminate.
  - intros Hnamed.
    unfold lookup_names; cbn [truthy negb].
    rewrite scan_names_hits by reflexivity.
    rewrite first_occurrence_hits.
    destruct (story_hits target stories) as [|r hits] eqn:E; [reflexivity|].
    cbn [find hd_error]; unfold named at 1.
    destruct (story_hits_in target stories r) as (rows & Hrows & Hr & _);
      [rewrite E; now left|].
    specialize (Hnamed rows r Hrows Hr).
    destruct (full_name r); [congruence|reflexivity].
Qed.

(** ** The locale *)

Lemma before_dot_prefix (s : string) :
  exists rest, s = (before_dot s ++ rest)%string.
Proof.
  induction s as [|c s (rest & IH)]; cbn [before_dot].
  - now exists EmptyString.
  - destruct (Ascii.eqb c "."); [now exists (String c s)|].
    exists rest; simpl; now rewrite <- IH.
Qed.

Lemma before_dot_no_dot (s : string) : ~ In "."%char (chars (before_dot s)).
Proof.
  unfold chars; induction s as [|c s IH]; cbn [before_dot]; [intros []|].
  destruct (Ascii.eqb c ".") eqn:E; [intros []|].
  apply Ascii.eqb_neq in E; intros [H|H]; [congruence|contradiction].
Qed.

Lemma first_two_prefix (s : string) :
  exists rest, s = (first_two s ++ rest)%string /\
               (String.length (first_two s) <= 2)%nat /\
               forall c, In c (chars (first_two s)) -> In c (chars s).
Proof.
  unfold chars; destruct s as [|a [|b s]].
  - exists EmptyString; repeat split; simpl; auto.
  - exists EmptyString; repeat split; simpl; auto.
  - exists s; repeat split; simpl; auto.
    intros c [H|[H|[]]]; auto.
Qed.

Lemma append_assoc (a b c : string) :
  ((a ++ b) ++ c = a ++ (b ++ c))%string.
Proof. induction a as [|x a IH]; simpl; [reflexivity|now rewrite IH]. Qed.

(** X26: the locale is at most two characters long, has no dot, and is the
    beginning of APP_LANG when that is set and not empty, of LANG otherwise,
    and of "en" when LANG is not set either. *)
Theorem detect_locale_shape (APP_LANG LANG : option string) :
  let locale := detect_locale APP_LANG LANG in
  (String.length locale <= 2)%nat /\
  ~ In "."%char (chars locale) /\
  (exists rest, env_lang APP_LANG LANG = (locale ++ rest)%string) /\
  (forall s, APP_LANG = Some s -> s <> EmptyString ->
             env_lang APP_LANG LANG = s) /\
  (APP_LANG = None \/ APP_LANG = Some EmptyString ->
   env_lang APP_LANG LANG =
   match LANG with
   | Some s => s
   | None => "en"%string
   end).
Proof.
  intros locale; subst locale; unfold detect_locale.
  destruct (first_two_prefix (before_dot (env_lang APP_LANG LANG)))
    as (rest2 & E2 & Hlen & Hsub).
  destruct (before_dot_prefix (env_lang APP_LANG LANG)) as (rest1 & E1).
  split; [exact Hlen|split; [|split; [|split]]].
  - intros Hin; apply Hsub in Hin; revert Hin; apply before_dot_no_dot.
  - exists (rest2 ++ rest1)%string.
    rewrite <- append_assoc, <- E2; exact E1.
  - intros s -> Hs; unfold env_lang.
    destruct s; [congruence|reflexivity].
  - intros [->| ->]; reflexivity.
Qed.

(** ** Reading back what [main.py] writes *)

(** X14: when [int] and [fromisoformat] read back the ids and the dates as the
    writer prints them, reading the records written for a list of viewers
    gives back the viewers, row for row and in order. *)
Theorem written_records_read_back (py_int : string -> option Z)
    (fromisoformat : string -> option datetime)
    (str_int : Z -> string) (str_date : datetime -> string)
    (viewers : list row) :
  (forall v, In v viewers ->
     py_int (str_int (uid v)) = Some (uid v) /\
     fromisoformat (str_date (date v)) = Some (date v)) ->
  read_story_csv py_int fromisoformat
    (map (written_record str_int str_date) viewers) = Ok viewers.
Proof.
  induction viewers as [|v viewers IH]; intros H; [reflexivity|].
  cbn [map read_story_csv]; unfold written_record at 1, read_row.
  destruct (H v (or_introl eq_refl)) as [-> ->]; cbn [bind].
  rewrite IH by (intros; apply H; now right); cbn [bind].
  now destruct v.
Qed.

Lemma written_records_read_back_witness :
  read_story_csv decimal_int sample_dates
    (map (written_record digit_string sample_date_string)
         [mkRow 7 "U" "u" (seconds 0); mkRow 3 "B" "" (seconds 0)])
  = Ok [mkRow 7 "U" "u" (seconds 0); mkRow 3 "B" "" (seconds 0)].
Proof.
  apply (written_records_read_back decimal_int sample_dates
           digit_string sample_date_string).
  intros v [<-|[<-|[]]]; split; reflexivity.
Defined.
